(** * Novirun execution engine: a shallow embedding of [executeFunction]

    Sources embedded here:
    - [src/database.js]: [getQuota], [updateQuota], [logExecution] (the
      quota and execution tables of PostgreSQL, as finite maps and lists),
      the [users] and [functions] operations, [initializeQuota] and the
      [POST /admin/reset-quotas] route;
    - [src/executor.js]: the Worker-based [executeFunction], the module
      imported by [main.js];
    - [src/auth.js], lines 52-72: [getAuthUser] and [requireAuth]; lines
      74-233: the subprocess-based [executeFunction] (temp file plus
      [Deno.run]);
    - [src/utils.js]: [sanitizeOutput], the validators, [maskSensitiveData],
      [corsMiddleware], [updateFunctionStatus] and [resetDailyQuotas];
    - [src/unnamed/part_001]: the deploy, function, status, delete and
      public [GET /run/:id] handlers.

    JavaScript [null] and [undefined] values of optional fields are both
    represented by [None]. *)

From Stdlib Require Import ZArith String Ascii Lia.
From stdpp Require Import base gmap strings list.

Open Scope Z_scope.

(* ================================================================== *)
(** ** Constants of [executor.js] *)

Definition MAX_EXECUTION_TIME_MS : Z := 15000.
Definition MAX_CPU_TIME_MS : Z := 2 * 60 * 60 * 1000.
Definition MAX_CONCURRENT_EXECUTIONS : Z := 10.
Definition MAX_INSTANCES_PER_MACHINE : Z := 50.

(* ================================================================== *)
(** ** The database ([database.js]) *)

(** A row of the [quotas] table. [user_id] is [UNIQUE], so the table is
    keyed by it. *)
Record quota_row := mk_quota {
  q_id : string;
  cpu_time_used_ms : Z;
  concurrent_count : Z;
  last_reset_at : Z
}.

(** A row of the [executions] table. *)
Record execution_row := mk_execution {
  x_function_id : string;
  x_user_id : string;
  x_status : string;
  x_output : option string;
  x_error : option string;
  x_execution_time_ms : Z
}.

(** [SELECT * FROM quotas WHERE user_id = userId] and [rows[0]]. *)
Definition getQuota (quotas : gmap string quota_row) (userId : string)
  : option quota_row :=
  quotas !! userId.

(** [UPDATE quotas SET cpu_time_used_ms = cpu_time_used_ms + cpuTimeUsedMs,
    concurrent_count = concurrentCount WHERE user_id = userId].
    When no row matches, the statement changes nothing. *)
Definition updateQuota (quotas : gmap string quota_row) (userId : string)
    (cpuTimeUsedMs concurrentCount : Z) : gmap string quota_row :=
  match quotas !! userId with
  | Some r =>
      <[userId := mk_quota r.(q_id) (r.(cpu_time_used_ms) + cpuTimeUsedMs)
                    concurrentCount r.(last_reset_at)]> quotas
  | None => quotas
  end.

(** [INSERT INTO executions ...]: appends one row. *)
Definition logExecution (log : list execution_row) (functionId userId status : string)
    (output error : option string) (executionTimeMs : Z) : list execution_row :=
  log ++ [mk_execution functionId userId status output error executionTimeMs].

(* ================================================================== *)
(** ** Process state seen by [executeFunction] *)

(** The module-level [currentInstanceCount], the quota table and the
    execution log. *)
Record world := mk_world {
  currentInstanceCount : Z;
  quotas : gmap string quota_row;
  executions : list execution_row
}.

Definition set_count (w : world) (n : Z) : world :=
  mk_world n w.(quotas) w.(executions).
Definition set_quotas (w : world) (q : gmap string quota_row) : world :=
  mk_world w.(currentInstanceCount) q w.(executions).
Definition set_executions (w : world) (l : list execution_row) : world :=
  mk_world w.(currentInstanceCount) w.(quotas) l.

(** The object returned by [executeFunction]: [{status, output, error,
    executionTimeMs}]; a missing [output] key is [None]. *)
Record ExecResult := mk_result {
  res_status : string;
  res_output : option string;
  res_error : option string;
  res_executionTimeMs : Z
}.

(** [{ status: "error", error: msg, executionTimeMs: t }] *)
Definition error_result (msg : option string) (t : Z) : ExecResult :=
  mk_result "error" None msg t.

(** The outer [catch (error)]: [{status:"error", error: error.message,
    executionTimeMs: 0}]. A thrown value carries its [message] property,
    which is [undefined] ([None]) for a value that is not an [Error]. *)
Definition catch_result (message : option string) : ExecResult :=
  error_result message 0.

(* ================================================================== *)
(** ** Admission (lines 13-46 of [executor.js], 86-119 of [auth.js]) *)

Definition machine_capacity_msg : string :=
  "Machine at capacity: maximum 50 concurrent instances reached".
Definition quota_not_initialized_msg : string := "User quota not initialized".
Definition user_concurrency_msg : string :=
  "User concurrent execution limit (10) reached".
Definition user_cpu_msg : string := "User CPU time quota exceeded (2 hour limit)".
Definition cpu_would_exceed_msg : string := "Execution would exceed CPU time quota".
Definition timeout_msg : string := "Execution timeout: exceeded 15 second limit".

(** The machine-level check, before [await getQuota]. *)
Definition machine_check (count : Z) : option ExecResult :=
  if MAX_INSTANCES_PER_MACHINE <=? count
  then Some (error_result (Some machine_capacity_msg) 0)
  else None.

Inductive admission :=
| Reject (r : ExecResult)
| Admit (quota : quota_row).

(** The checks on the quota row, after [await getQuota]. *)
Definition quota_checks (quota : option quota_row) : admission :=
  match quota with
  | None => Reject (error_result (Some quota_not_initialized_msg) 0)
  | Some q =>
      if MAX_CONCURRENT_EXECUTIONS <=? q.(concurrent_count)
      then Reject (error_result (Some user_concurrency_msg) 0)
      else if MAX_CPU_TIME_MS <=? q.(cpu_time_used_ms)
      then Reject (error_result (Some user_cpu_msg) 0)
      else Admit q
  end.

(* ================================================================== *)
(** ** [executeFunction] of [executor.js] (Worker sandbox)

    The function is cut at its [await]s. A database call takes effect
    when its [await] resumes. What the sandbox does with [code] and
    [inputData] is the environment's choice ([worker_env]). *)

(** The first event the parent's listeners see before the 15 s timer.
    [WNoEvent]: no event arrives; the timer's callback only calls
    [worker.terminate()], which delivers no event. *)
Inductive worker_message :=
| WSuccess (executionTimeMs : Z)
| WError (message : option string) (executionTimeMs : Z)
| WErrorEvent (message : option string)
| WNoEvent.

(** An exception thrown by an awaited call, with its [message]. *)
Definition throws : Type := option (option string).

Record worker_env := mk_worker_env {
  we_getQuota : throws;
  we_updateQuota1 : throws;
  we_spawn : throws;            (* [new Blob], [URL.createObjectURL], [new Worker] *)
  we_message : worker_message;
  we_console : string;          (* text gathered by the [console.log] patch *)
  we_elapsed : Z;               (* [Date.now() - startTime], line 201 *)
  we_updateQuota2 : throws;
  we_logExecution : throws
}.

(** The value the result promise resolves with (lines 149-179). *)
Record wresult := mk_wresult {
  wr_status : string;
  wr_output : option string;
  wr_error : option string
}.

(** [e.message || "Worker error"] *)
Definition or_worker_error (m : option string) : string :=
  match m with
  | Some s => if String.eqb s EmptyString then "Worker error" else s
  | None => "Worker error"
  end.

Definition resolve_message (m : worker_message) (output : string) : option wresult :=
  match m with
  | WSuccess _ => Some (mk_wresult "success" (Some output) None)
  | WError msg _ => Some (mk_wresult "error" None msg)
  | WErrorEvent msg => Some (mk_wresult "error" None (Some (or_worker_error msg)))
  | WNoEvent => None
  end.

(** Program points: the [await] a suspended invocation waits on. *)
Inductive wpc :=
| WP_start
| WP_await_getQuota
| WP_await_updateQuota1 (quota : quota_row)
| WP_await_worker (quota : quota_row)
| WP_await_updateQuota2 (quota : quota_row) (result : wresult) (executionTimeMs : Z)
| WP_await_logExecution (quota : quota_row) (result : wresult) (executionTimeMs : Z)
| WP_returned (r : ExecResult).

(** Leaving the inner [try] through its [finally]: [currentInstanceCount--]. *)
Definition release (w : world) : world :=
  set_count w (w.(currentInstanceCount) - 1).

(** The returned object of lines 225-230. *)
Definition final_result (result : wresult) (executionTimeMs : Z) : ExecResult :=
  mk_result result.(wr_status)
    (if String.eqb result.(wr_status) "success" then result.(wr_output) else None)
    (if String.eqb result.(wr_status) "error" then result.(wr_error) else None)
    executionTimeMs.

(** One synchronous segment of an invocation by [userId] of [functionId]. *)
Definition wstep (env : worker_env) (functionId userId : string)
    (w : world) (pc : wpc) : world * wpc :=
  match pc with
  | WP_start =>
      match machine_check w.(currentInstanceCount) with
      | Some r => (w, WP_returned r)
      | None => (w, WP_await_getQuota)
      end
  | WP_await_getQuota =>
      match env.(we_getQuota) with
      | Some m => (w, WP_returned (catch_result m))
      | None =>
          match quota_checks (getQuota w.(quotas) userId) with
          | Reject r => (w, WP_returned r)
          | Admit quota =>
              (set_count w (w.(currentInstanceCount) + 1), WP_await_updateQuota1 quota)
          end
      end
  | WP_await_updateQuota1 quota =>
      match env.(we_updateQuota1) with
      | Some m => (w, WP_returned (catch_result m))   (* outside the inner try *)
      | None =>
          let w := set_quotas w (updateQuota w.(quotas) userId 0
                                   (quota.(concurrent_count) + 1)) in
          match env.(we_spawn) with
          | Some m => (release w, WP_returned (catch_result m))
          | None => (w, WP_await_worker quota)
          end
      end
  | WP_await_worker quota =>
      match resolve_message env.(we_message) env.(we_console) with
      | None => (w, WP_await_worker quota)   (* the promise never settles *)
      | Some result =>
          let executionTimeMs := env.(we_elapsed) in
          if MAX_CPU_TIME_MS <? quota.(cpu_time_used_ms) + executionTimeMs
          then (release w,
                WP_returned (error_result (Some cpu_would_exceed_msg) executionTimeMs))
          else (w, WP_await_updateQuota2 quota result executionTimeMs)
      end
  | WP_await_updateQuota2 quota result executionTimeMs =>
      match env.(we_updateQuota2) with
      | Some m => (release w, WP_returned (catch_result m))
      | None =>
          (set_quotas w (updateQuota w.(quotas) userId executionTimeMs
                           (quota.(concurrent_count) - 1)),
           WP_await_logExecution quota result executionTimeMs)
      end
  | WP_await_logExecution quota result executionTimeMs =>
      match env.(we_logExecution) with
      | Some m => (release w, WP_returned (catch_result m))
      | None =>
          let w := set_executions w
                     (logExecution w.(executions) functionId userId result.(wr_status)
                        (if String.eqb result.(wr_status) "success" then result.(wr_output) else None)
                        (if String.eqb result.(wr_status) "error" then result.(wr_error) else None)
                        executionTimeMs) in
          (release w, WP_returned (final_result result executionTimeMs))
      end
  | WP_returned r => (w, WP_returned r)
  end.

Fixpoint wrun (fuel : nat) (env : worker_env) (functionId userId : string)
    (w : world) (pc : wpc) : world * wpc :=
  match fuel with
  | O => (w, pc)
  | S n => let '(w', pc') := wstep env functionId userId w pc in
           wrun n env functionId userId w' pc'
  end.

(** What a caller of [executeFunction] observes: a returned object and
    the state when it returns, or an invocation that stays suspended. *)
Inductive outcome :=
| Returned (r : ExecResult) (w : world)
| Pending (w : world).

(** A sequential run of [executeFunction]: six segments reach the end. *)
Definition executeFunction_worker (env : worker_env) (functionId userId : string)
    (w : world) : outcome :=
  match wrun 6 env functionId userId w WP_start with
  | (w', WP_returned r) => Returned r w'
  | (w', _) => Pending w'
  end.

(* ================================================================== *)
(** ** JSON values and [JSON.stringify]

    A JSON number is the decimal [m * 10^e]. An object is its property
    list in insertion order, without duplicate keys. Strings are byte
    strings. *)

Local Set Warnings "-register-all".

Inductive json :=
| JNull
| JBool (b : bool)
| JNum (m : Z) (e : Z)
| JStr (s : string)
| JArr (l : list json)
| JObj (kvs : list (string * json)).

Definition ch_quote : ascii := Ascii.ascii_of_nat 34.
Definition ch_backslash : ascii := Ascii.ascii_of_nat 92.
Definition ch_nl : ascii := Ascii.ascii_of_nat 10.
Definition s_of (c : ascii) : string := String c EmptyString.
Definition nl : string := s_of ch_nl.

Definition digit_char (d : Z) : ascii := Ascii.ascii_of_nat (48 + Z.to_nat d).

Fixpoint digits_aux (fuel : nat) (n : Z) (acc : string) : string :=
  match fuel with
  | O => acc
  | S f =>
      let acc' := String (digit_char (n mod 10)) acc in
      if n <? 10 then acc' else digits_aux f (n / 10) acc'
  end.

(** Decimal notation of an integer. *)
Definition Z_to_decimal (z : Z) : string :=
  let fuel := S (Pos.size_nat (Z.to_pos (Z.abs z))) in
  if z <? 0 then "-" +:+ digits_aux fuel (- z) EmptyString
  else digits_aux fuel z EmptyString.

(** A number is written as an integer, or as [m] and a negative exponent
    ([15e-1] where JavaScript writes [1.5]: the same value). *)
Definition number_to_string (m e : Z) : string :=
  if 0 <=? e then Z_to_decimal (m * 10 ^ e)
  else Z_to_decimal m +:+ "e" +:+ Z_to_decimal e.

Definition hex_char (d : Z) : ascii :=
  if d <? 10 then digit_char d else Ascii.ascii_of_nat (87 + Z.to_nat d).

(** The escape of one character inside a JSON string literal. *)
Definition escape_char (c : ascii) : string :=
  let n := Z.of_nat (Ascii.nat_of_ascii c) in
  if n =? 34 then s_of ch_backslash +:+ s_of ch_quote
  else if n =? 92 then s_of ch_backslash +:+ s_of ch_backslash
  else if n =? 8 then s_of ch_backslash +:+ "b"
  else if n =? 12 then s_of ch_backslash +:+ "f"
  else if n =? 10 then s_of ch_backslash +:+ "n"
  else if n =? 13 then s_of ch_backslash +:+ "r"
  else if n =? 9 then s_of ch_backslash +:+ "t"
  else if n <? 32 then s_of ch_backslash +:+ "u00" +:+ s_of (hex_char (n / 16))
                       +:+ s_of (hex_char (n mod 16))
  else s_of c.

Fixpoint escape_string (s : string) : string :=
  match s with
  | EmptyString => EmptyString
  | String c r => escape_char c +:+ escape_string r
  end.

Definition quote (s : string) : string := s_of ch_quote +:+ escape_string s +:+ s_of ch_quote.

Fixpoint join (sep : string) (l : list string) : string :=
  match l with
  | [] => EmptyString
  | [x] => x
  | x :: r => x +:+ sep +:+ join sep r
  end.

Fixpoint JSON_stringify (v : json) : string :=
  match v with
  | JNull => "null"
  | JBool true => "true"
  | JBool false => "false"
  | JNum m e => number_to_string m e
  | JStr s => quote s
  | JArr l => "[" +:+ join "," (map JSON_stringify l) +:+ "]"
  | JObj kvs =>
      "{" +:+ join "," (map (fun '(k, x) => quote k +:+ ":" +:+ JSON_stringify x) kvs) +:+ "}"
  end.

(* ================================================================== *)
(** ** [executeFunction] of [auth.js] (subprocess sandbox, lines 74-233) *)

(** The program written to the temp file (lines 129-132). *)
Definition subprocess_wrappedCode (inputData : json) (code : string) : string :=
  nl +:+ "const input = " +:+ JSON_stringify inputData +:+ ";" +:+ nl
     +:+ code +:+ nl +:+ "      ".

Definition deno_cmd (tempFile : string) : list string :=
  ["deno"; "run"; "--allow-net"; "--no-allow-read"; "--no-allow-write";
   "--no-allow-env"; "--no-allow-run"; tempFile].

(** Who wins [Promise.race] (lines 160-170): the child, having exited
    with its success flag and both pipes read to the end, or the 15 s
    timer, whose promise rejects. *)
Inductive proc_outcome :=
| PCompleted (success : bool) (stdout stderr : string)
| PTimedOut.

(** The operating-system effects of one invocation, in order. *)
Inductive sp_effect :=
| E_makeTempFile (path : string)
| E_writeTextFile (path text : string)
| E_run (cmd : list string)
| E_close                     (* [executionPromise.close()] *)
| E_remove (path : string).   (* [Deno.remove(tempFile)]; failures ignored *)

Record proc_env := mk_proc_env {
  pe_getQuota : throws;
  pe_updateQuota1 : throws;
  pe_makeTempFile : throws;
  pe_tempFile : string;
  pe_writeTextFile : throws;
  pe_run : throws;
  pe_outcome : proc_outcome;
  pe_elapsed : Z;              (* [Date.now() - startTime], line 172 *)
  pe_updateQuota2 : throws;
  pe_logExecution : throws
}.

(** The body of the inner [try] (lines 128-207): [inl] for a [return],
    [inr] for an exception with its [message]. *)
Definition subprocess_try (env : proc_env) (functionId userId code : string)
    (inputData : json) (quota : quota_row) (w : world)
  : (ExecResult + option string) * world * list sp_effect :=
  let tempFile := env.(pe_tempFile) in
  let wrappedCode := subprocess_wrappedCode inputData code in
  match env.(pe_writeTextFile) with
  | Some m => (inr m, w, [])
  | None =>
  let e1 := [E_writeTextFile tempFile wrappedCode] in
  match env.(pe_run) with
  | Some m => (inr m, w, e1)
  | None =>
  let e2 := e1 ++ [E_run (deno_cmd tempFile)] in
  match env.(pe_outcome) with
  | PTimedOut => (inr (Some timeout_msg), w, e2)
  | PCompleted success stdout stderr =>
      let executionTimeMs := env.(pe_elapsed) in
      if MAX_CPU_TIME_MS <? quota.(cpu_time_used_ms) + executionTimeMs
      then (inl (error_result (Some cpu_would_exceed_msg) executionTimeMs), w, e2 ++ [E_close])
      else
      let output := stdout in
      let error := stderr in
      match env.(pe_updateQuota2) with
      | Some m => (inr m, w, e2)
      | None =>
      let w := set_quotas w (updateQuota w.(quotas) userId executionTimeMs
                               (quota.(concurrent_count) - 1)) in
      (* [!success || error ? error : null]: a non-empty [error] is truthy *)
      let err := if negb success || negb (String.eqb error EmptyString) then Some error else None in
      let status := if success then "success" else "error" in
      let out := if success then Some output else None in
      match env.(pe_logExecution) with
      | Some m => (inr m, w, e2)
      | None =>
      let w := set_executions w (logExecution w.(executions) functionId userId
                                   status out err executionTimeMs) in
      (inl (mk_result status out err executionTimeMs), w, e2 ++ [E_close])
      end
      end
  end
  end
  end.

Definition executeFunction_subprocess (env : proc_env) (functionId userId code : string)
    (inputData : json) (w : world) : ExecResult * world * list sp_effect :=
  match machine_check w.(currentInstanceCount) with
  | Some r => (r, w, [])
  | None =>
  match env.(pe_getQuota) with
  | Some m => (catch_result m, w, [])
  | None =>
  match quota_checks (getQuota w.(quotas) userId) with
  | Reject r => (r, w, [])
  | Admit quota =>
  let w := set_count w (w.(currentInstanceCount) + 1) in
  match env.(pe_updateQuota1) with
  | Some m => (catch_result m, w, [])
  | None =>
  let w := set_quotas w (updateQuota w.(quotas) userId 0 (quota.(concurrent_count) + 1)) in
  match env.(pe_makeTempFile) with
  | Some m => (catch_result m, w, [])
  | None =>
  let tempFile := env.(pe_tempFile) in
  let '(r, w, effs) := subprocess_try env functionId userId code inputData quota w in
  (* [finally]: [currentInstanceCount--] and the removal of the temp file *)
  let w := release w in
  let effs := [E_makeTempFile tempFile] ++ effs ++ [E_remove tempFile] in
  match r with
  | inl res => (res, w, effs)
  | inr m => (catch_result m, w, effs)
  end
  end
  end
  end
  end
  end.

(* ================================================================== *)
(** ** Concurrent invocations of [executor.js]'s [executeFunction]

    Deno runs the invocations on one event loop: each runs a synchronous
    segment ([wstep]) between two [await]s, and any suspended invocation
    may resume next. A schedule lists the invocation resumed at each
    step; an invocation still at [WP_start] has not been called yet. *)

Record thread := mk_thread {
  t_env : worker_env;
  t_functionId : string;
  t_userId : string;
  t_pc : wpc
}.

Definition system : Type := world * list thread.

Definition sched_step (s : system) (i : nat) : system :=
  let '(w, ts) := s in
  match ts !! i with
  | Some t =>
      let '(w', pc') := wstep t.(t_env) t.(t_functionId) t.(t_userId) w t.(t_pc) in
      (w', <[i := mk_thread t.(t_env) t.(t_functionId) t.(t_userId) pc']> ts)
  | None => (w, ts)
  end.

Fixpoint run_schedule (s : system) (sched : list nat) : system :=
  match sched with
  | [] => s
  | i :: r => run_schedule (sched_step s i) r
  end.

(** The states an observer (for instance [GET /health], which reads
    [getInstanceCount()]) can see: the state before and after each step. *)
Fixpoint observed (s : system) (sched : list nat) : list world :=
  match sched with
  | [] => [s.1]
  | i :: r => s.1 :: observed (sched_step s i) r
  end.

(** The two ceilings of the spec's invariant. *)
Definition within_limits (w : world) : Prop :=
  w.(currentInstanceCount) <= MAX_INSTANCES_PER_MACHINE /\
  map_Forall (fun _ q => q.(concurrent_count) <= MAX_CONCURRENT_EXECUTIONS) w.(quotas).

(** Fresh invocations: none has started yet. *)
Definition all_fresh (ts : list thread) : Prop :=
  Forall (fun t => t.(t_pc) = WP_start) ts.

(* ================================================================== *)
(** ** [JSON.parse]

    A recursive-descent reading of RFC 8259 on byte strings. A [\uXXXX]
    escape above [ÿ] has no byte and is refused. Duplicate keys
    keep the first position and the last value, as in JavaScript. *)

Definition ch_is (c : ascii) (n : nat) : bool := Nat.eqb (Ascii.nat_of_ascii c) n.

Definition is_ws (c : ascii) : bool := ch_is c 32 || ch_is c 9 || ch_is c 10 || ch_is c 13.

Fixpoint skip_ws (l : list ascii) : list ascii :=
  match l with
  | c :: r => if is_ws c then skip_ws r else l
  | [] => []
  end.

Definition is_digit (c : ascii) : bool :=
  (48 <=? Ascii.nat_of_ascii c)%nat && (Ascii.nat_of_ascii c <=? 57)%nat.

Fixpoint span_digits (l : list ascii) : list ascii * list ascii :=
  match l with
  | c :: r => if is_digit c then let '(ds, r') := span_digits r in (c :: ds, r') else ([], l)
  | [] => ([], [])
  end.

Definition digits_to_Z (ds : list ascii) : Z :=
  fold_left (fun acc c => acc * 10 + (Z.of_nat (Ascii.nat_of_ascii c) - 48)) ds 0.

Definition parse_number (l : list ascii) : option (json * list ascii) :=
  let '(neg, l1) := match l with
                    | c :: r => if ch_is c 45 then (true, r) else (false, l)
                    | [] => (false, l)
                    end in
  let '(intd, l2) := span_digits l1 in
  let leading_zero := match intd with
                      | c :: _ :: _ => ch_is c 48
                      | _ => false
                      end in
  if (bool_decide (intd = []) || leading_zero)%bool then None else
  let frac := match l2 with
              | c :: r => if ch_is c 46 then
                            let '(fd, r') := span_digits r in
                            if bool_decide (fd = []) then None else Some (fd, r')
                          else Some ([], l2)
              | [] => Some ([], l2)
              end in
  match frac with
  | None => None
  | Some (fracd, l3) =>
  let expo := match l3 with
              | c :: r => if ch_is c 101 || ch_is c 69 then
                            let '(eneg, r1) := match r with
                                               | s :: r' => if ch_is s 45 then (true, r')
                                                            else if ch_is s 43 then (false, r')
                                                            else (false, r)
                                               | [] => (false, r)
                                               end in
                            let '(ed, r2) := span_digits r1 in
                            if bool_decide (ed = []) then None
                            else Some ((if eneg then - digits_to_Z ed else digits_to_Z ed), r2)
                          else Some (0, l3)
              | [] => Some (0, l3)
              end in
  match expo with
  | None => None
  | Some (x, l4) =>
      let m := digits_to_Z (intd ++ fracd) in
      Some (JNum (if neg then - m else m) (x - Z.of_nat (length fracd)), l4)
  end
  end.

Definition hex_val (c : ascii) : option Z :=
  let n := Z.of_nat (Ascii.nat_of_ascii c) in
  if (48 <=? n) && (n <=? 57) then Some (n - 48)
  else if (97 <=? n) && (n <=? 102) then Some (n - 87)
  else if (65 <=? n) && (n <=? 70) then Some (n - 55)
  else None.

(** The character of a one-letter escape [\e]. *)
Definition simple_escape (e : ascii) : option ascii :=
  if ch_is e 34 then Some ch_quote
  else if ch_is e 92 then Some ch_backslash
  else if ch_is e 47 then Some e
  else if ch_is e 98 then Some (Ascii.ascii_of_nat 8)
  else if ch_is e 102 then Some (Ascii.ascii_of_nat 12)
  else if ch_is e 110 then Some ch_nl
  else if ch_is e 114 then Some (Ascii.ascii_of_nat 13)
  else if ch_is e 116 then Some (Ascii.ascii_of_nat 9)
  else None.

(** The characters of a string literal after its opening quote. *)
Fixpoint parse_string_chars (l : list ascii) (acc : list ascii) : option (string * list ascii) :=
  match l with
  | [] => None
  | c :: r =>
      if ch_is c 34 then Some (string_of_list_ascii (rev acc), r)
      else if ch_is c 92 then
        match r with
        | e :: r1 =>
            if ch_is e 117 then
              match r1 with
              | h1 :: h2 :: h3 :: h4 :: r' =>
                  match hex_val h1, hex_val h2, hex_val h3, hex_val h4 with
                  | Some a, Some b, Some c', Some d =>
                      let code := ((a * 16 + b) * 16 + c') * 16 + d in
                      if code <? 256
                      then parse_string_chars r' (Ascii.ascii_of_nat (Z.to_nat code) :: acc)
                      else None
                  | _, _, _, _ => None
                  end
              | _ => None
              end
            else match simple_escape e with
                 | Some x => parse_string_chars r1 (x :: acc)
                 | None => None
                 end
        | [] => None
        end
      else if (Ascii.nat_of_ascii c <? 32)%nat then None
      else parse_string_chars r (c :: acc)
  end.

(** [obj[k] = v] on a property list. *)
Fixpoint obj_set (kvs : list (string * json)) (k : string) (v : json) : list (string * json) :=
  match kvs with
  | [] => [(k, v)]
  | (k', v') :: r => if String.eqb k k' then (k, v) :: r else (k', v') :: obj_set r k v
  end.

Fixpoint obj_get (kvs : list (string * json)) (k : string) : option json :=
  match kvs with
  | [] => None
  | (k', v') :: r => if String.eqb k k' then Some v' else obj_get r k
  end.

Fixpoint starts_with (p l : list ascii) : option (list ascii) :=
  match p, l with
  | [], _ => Some l
  | a :: p', b :: l' => if Ascii.eqb a b then starts_with p' l' else None
  | _ :: _, [] => None
  end.

Fixpoint parse_value (fuel : nat) (l : list ascii) : option (json * list ascii) :=
  match fuel with
  | O => None
  | S f =>
  match skip_ws l with
  | [] => None
  | c :: r =>
      if ch_is c 123 then
        match skip_ws r with
        | d :: r' => if ch_is d 125 then Some (JObj [], r') else parse_members f r []
        | [] => None
        end
      else if ch_is c 91 then
        match skip_ws r with
        | d :: r' => if ch_is d 93 then Some (JArr [], r') else parse_elements f r []
        | [] => None
        end
      else if ch_is c 34 then
        match parse_string_chars r [] with
        | Some (s, r') => Some (JStr s, r')
        | None => None
        end
      else match starts_with (list_ascii_of_string "true") (c :: r) with
      | Some r' => Some (JBool true, r')
      | None =>
      match starts_with (list_ascii_of_string "false") (c :: r) with
      | Some r' => Some (JBool false, r')
      | None =>
      match starts_with (list_ascii_of_string "null") (c :: r) with
      | Some r' => Some (JNull, r')
      | None => parse_number (c :: r)
      end end end
  end
  end
with parse_elements (fuel : nat) (l : list ascii) (acc : list json) : option (json * list ascii) :=
  match fuel with
  | O => None
  | S f =>
  match parse_value f l with
  | None => None
  | Some (v, r) =>
      match skip_ws r with
      | c :: r' => if ch_is c 44 then parse_elements f r' (acc ++ [v])
                   else if ch_is c 93 then Some (JArr (acc ++ [v]), r')
                   else None
      | [] => None
      end
  end
  end
with parse_members (fuel : nat) (l : list ascii) (acc : list (string * json))
  : option (json * list ascii) :=
  match fuel with
  | O => None
  | S f =>
  match skip_ws l with
  | q :: r =>
      if negb (ch_is q 34) then None else
      match parse_string_chars r [] with
      | None => None
      | Some (k, r1) =>
          match skip_ws r1 with
          | col :: r2 =>
              if negb (ch_is col 58) then None else
              match parse_value f r2 with
              | None => None
              | Some (v, r3) =>
                  match skip_ws r3 with
                  | c :: r4 => if ch_is c 44 then parse_members f r4 (obj_set acc k v)
                               else if ch_is c 125 then Some (JObj (obj_set acc k v), r4)
                               else None
                  | [] => None
                  end
              end
          | [] => None
          end
      end
  | [] => None
  end
  end.

(** [JSON.parse(s)]: [None] where it throws a [SyntaxError]. *)
Definition JSON_parse (s : string) : option json :=
  let l := list_ascii_of_string s in
  match parse_value (3 * length l + 3) l with
  | Some (v, r) => if bool_decide (skip_ws r = []) then Some v else None
  | None => None
  end.

(* ================================================================== *)
(** ** [sanitizeOutput] ([utils.js], lines 93-100)

    [output.length] counts the string's characters (bytes here). *)

Definition OUTPUT_LIMIT : nat := Z.to_nat 1000000.

Definition truncation_marker : string := nl +:+ "... (output truncated)".

(** [if (!output) return output]: [null], [undefined] and the empty string are
    returned as they are. *)
Definition sanitizeOutput (output : option string) : option string :=
  match output with
  | None => None
  | Some s =>
      if String.eqb s EmptyString then Some s
      else if (OUTPUT_LIMIT <? String.length s)%nat
      then Some (String.substring 0 OUTPUT_LIMIT s +:+ truncation_marker)
      else Some s
  end.

(* ================================================================== *)
(** ** The response of [GET /run/:id] ([unnamed/part_001], lines 255-304)

    The CORS headers the handler sets in both branches are constant and
    left out; the envelope keeps the custom headers in the order the
    handler sets them. *)

(** [String(value)] *)
Fixpoint js_String (v : json) : string :=
  match v with
  | JNull => "null"
  | JBool true => "true"
  | JBool false => "false"
  | JNum m e => number_to_string m e
  | JStr s => s
  | JArr l => join "," (map (fun x => match x with JNull => EmptyString | _ => js_String x end) l)
  | JObj _ => "[object Object]"
  end.

(** [Object.entries(h)] for the two kinds of JSON value of type
    ["object"] that are truthy. *)
Definition header_entries (h : json) : option (list (string * json)) :=
  match h with
  | JObj kvs => Some kvs
  | JArr l => Some (imap (fun i x => (Z_to_decimal (Z.of_nat i), x)) l)
  | _ => None
  end.

(** [Headers.set] throws a [TypeError] unless the name is an HTTP token
    and the value, stripped of surrounding whitespace, has no NUL, CR or
    LF. *)
Definition token_char (c : ascii) : bool :=
  let n := Ascii.nat_of_ascii c in
  ((48 <=? n) && (n <=? 57) || (65 <=? n) && (n <=? 90) || (97 <=? n) && (n <=? 122))%nat
  || existsb (ch_is c) [33; 35; 36; 37; 38; 39; 42; 43; 45; 46; 94; 95; 96; 124; 126]%nat.

Definition header_name_ok (k : string) : bool :=
  negb (String.eqb k EmptyString) && forallb token_char (list_ascii_of_string k).

Definition header_value_ok (v : string) : bool :=
  forallb (fun c => negb (ch_is c 0 || ch_is c 10 || ch_is c 13))
    (rev (skip_ws (rev (skip_ws (list_ascii_of_string v))))).

(** The [forEach] of [headers.set(key, String(value))]: [None] if a call
    throws. *)
Fixpoint set_headers (es : list (string * json)) : option (list (string * string)) :=
  match es with
  | [] => Some []
  | (k, v) :: r =>
      if header_name_ok k && header_value_ok (js_String v)
      then match set_headers r with
           | Some hs => Some ((k, js_String v) :: hs)
           | None => None
           end
      else None
  end.

(** What the handler puts in [ctx.response]. [HttpEnvelope]: status,
    custom headers, and body ([None] for [undefined]). [RawOutput]:
    the default [formatSuccess({...result, output: sanitizeOutput(...)})]
    body, with the status the envelope branch had already assigned
    before a [headers.set] threw, if any. *)
Inductive run_response :=
| HttpEnvelope (status : json) (headers : list (string * string)) (body : option json)
| RawOutput (status : option json) (result : ExecResult).

Definition sanitized (result : ExecResult) : ExecResult :=
  mk_result result.(res_status) (sanitizeOutput result.(res_output))
    result.(res_error) result.(res_executionTimeMs).

(** [let body = httpResponse.body; if (typeof body === 'string') try
    { body = JSON.parse(body) } catch {}] *)
Definition envelope_body (b : option json) : option json :=
  match b with
  | Some (JStr s) => match JSON_parse s with
                     | Some v => Some v
                     | None => Some (JStr s)
                     end
  | _ => b
  end.

Definition capture_response (result : ExecResult) : run_response :=
  let default := RawOutput None (sanitized result) in
  match result.(res_output) with
  | Some out =>
      (* [result.status === 'success' && result.output] *)
      if String.eqb result.(res_status) "success" && negb (String.eqb out EmptyString) then
        match JSON_parse out with
        | Some (JObj kvs) =>
            (* [httpResponse && typeof httpResponse.status === 'number'] *)
            match obj_get kvs "status" with
            | Some (JNum m e) =>
                let hs := match obj_get kvs "headers" with
                          | Some h => match header_entries h with
                                      | Some es => set_headers es
                                      | None => Some []
                                      end
                          | None => Some []
                          end in
                match hs with
                | Some hs => HttpEnvelope (JNum m e) hs (envelope_body (obj_get kvs "body"))
                | None => RawOutput (Some (JNum m e)) (sanitized result)
                end
            | _ => default
            end
        | _ => default
        end
      else default
  | None => default
  end.

(* ================================================================== *)
(** ** The program of the Worker sandbox ([executor.js], lines 61-95)

    The worker evaluates this template with the [code] and [input] it
    receives, turns the text into a [Blob] URL, [import]s it, and
    revokes the URL in a [finally]. *)

Definition worker_wrappedCode (input : json) (code : string) : string :=
  let q := s_of ch_quote in
  nl
  +:+ "      const input = " +:+ JSON_stringify input +:+ ";" +:+ nl
  +:+ "      " +:+ nl
  +:+ "      const handler = async (req) => {" +:+ nl
  +:+ "        " +:+ code +:+ nl
  +:+ "      };" +:+ nl
  +:+ "      " +:+ nl
  +:+ "      const server = Deno.serve({ " +:+ nl
  +:+ "        port: 0," +:+ nl
  +:+ "        hostname: " +:+ q +:+ "127.0.0.1" +:+ q +:+ "," +:+ nl
  +:+ "        onListen: () => {}" +:+ nl
  +:+ "      }, handler);" +:+ nl
  +:+ "      " +:+ nl
  +:+ "      try {" +:+ nl
  +:+ "        const response = await fetch(" +:+ q +:+ "http://127.0.0.1:" +:+ q +:+ " + server.addr.port);" +:+ nl
  +:+ "        const body = await response.text();" +:+ nl
  +:+ "        " +:+ nl
  +:+ "        const headers = {};" +:+ nl
  +:+ "        response.headers.forEach((value, key) => {" +:+ nl
  +:+ "          headers[key] = value;" +:+ nl
  +:+ "        });" +:+ nl
  +:+ "        " +:+ nl
  +:+ "        const result = {" +:+ nl
  +:+ "          status: response.status," +:+ nl
  +:+ "          headers: headers," +:+ nl
  +:+ "          body: body" +:+ nl
  +:+ "        };" +:+ nl
  +:+ "        " +:+ nl
  +:+ "        await server.shutdown();" +:+ nl
  +:+ "        console.log(JSON.stringify(result));" +:+ nl
  +:+ "      } catch (err) {" +:+ nl
  +:+ "        await server.shutdown();" +:+ nl
  +:+ "        throw err;" +:+ nl
  +:+ "      }" +:+ nl
  +:+ "    ".

(* ================================================================== *)
(** ** Validation and helpers of [utils.js] (lines 1-91)

    As elsewhere in this file, a JavaScript string is the sequence of its
    code units, each one an [ascii] (code units 0-255). A request field
    is an [option json], [None] standing for [undefined]. *)

(** The result objects [{ valid: true }] and [{ valid: false, error }]. *)
Inductive validation :=
| Valid
| Invalid (error : string).

(** One character of [/^[a-zA-Z0-9_-]+$/]. *)
Definition name_char (c : ascii) : bool :=
  let n := Ascii.nat_of_ascii c in
  ((97 <=? n) && (n <=? 122) || (65 <=? n) && (n <=? 90) || (48 <=? n) && (n <=? 57))%nat
  || ch_is c 95 || ch_is c 45.

(** [/^[a-zA-Z0-9_-]+$/.test(name)] *)
Definition name_regex (name : string) : bool :=
  negb (String.eqb name EmptyString) && forallb name_char (list_ascii_of_string name).

Definition name_required_msg : string := "Function name is required".
Definition name_length_msg : string := "Function name must be 1-64 characters".
Definition name_chars_msg : string :=
  "Function name can only contain alphanumeric characters, hyphens, and underscores".

(** [validateFunctionName] (lines 2-13). [!name || typeof name !== "string"]
    rejects every non-string and the empty string. *)
Definition validateFunctionName (name : option json) : validation :=
  match name with
  | Some (JStr s) =>
      if String.eqb s EmptyString then Invalid name_required_msg
      else if (String.length s <? 1)%nat || (64 <? String.length s)%nat
      then Invalid name_length_msg
      else if name_regex s then Valid
      else Invalid name_chars_msg
  | _ => Invalid name_required_msg
  end.

Definition CODE_LIMIT : nat := Z.to_nat 1000000.

Definition code_required_msg : string := "Code is required".
Definition code_size_msg : string := "Code exceeds maximum size (1MB)".

(** [validateCode] (lines 15-23). *)
Definition validateCode (code : option json) : validation :=
  match code with
  | Some (JStr s) =>
      if String.eqb s EmptyString then Invalid code_required_msg
      else if (CODE_LIMIT <? String.length s)%nat then Invalid code_size_msg
      else Valid
  | _ => Invalid code_required_msg
  end.

(** [String.prototype.toLowerCase] on code units 0-255: [A-Z] and the
    Latin-1 capitals U+00C0-U+00DE except U+00D7 move up by 32. *)
Definition lower_char (c : ascii) : ascii :=
  let n := Ascii.nat_of_ascii c in
  if ((65 <=? n) && (n <=? 90) || (192 <=? n) && (n <=? 222) && negb (n =? 215))%nat
  then Ascii.ascii_of_nat (n + 32) else c.

Definition toLowerCase (s : string) : string :=
  string_of_list_ascii (map lower_char (list_ascii_of_string s)).

(** [s.includes(needle)] *)
Fixpoint includes (s needle : string) : bool :=
  String.prefix needle s ||
  match s with
  | EmptyString => false
  | String _ s' => includes s' needle
  end.

(** The test of [maskSensitiveData] on one key. *)
Definition sensitive_key (key : string) : bool :=
  includes (toLowerCase key) "code" || includes (toLowerCase key) "password" ||
  includes (toLowerCase key) "key" || includes (toLowerCase key) "secret".

Definition redacted : json := JStr "[REDACTED]".

(** [maskSensitiveData] (lines 54-66) on an object: the spread copies the
    own properties in order, and the [for ... in] loop overwrites the
    value of each sensitive key in place. *)
Definition maskSensitiveData (obj : list (string * json)) : list (string * json) :=
  map (fun kv => if sensitive_key kv.1 then (kv.1, redacted) else kv) obj.

(** [[0-9a-f]] under the [i] flag, and the literal [-]. *)
Definition hex_ci (c : ascii) : bool :=
  let n := Ascii.nat_of_ascii c in
  ((48 <=? n) && (n <=? 57) || (97 <=? n) && (n <=? 102) || (65 <=? n) && (n <=? 70))%nat.

Definition dash (c : ascii) : bool := ch_is c 45.

(** [/^[0-9a-f]{8}-[0-9a-f]{4}-[0-9a-f]{4}-[0-9a-f]{4}-[0-9a-f]{12}$/i]:
    a fixed sequence of character classes, anchored at both ends. *)
Definition uuid_pattern : list (ascii -> bool) :=
  repeat hex_ci 8 ++ [dash] ++ repeat hex_ci 4 ++ [dash] ++ repeat hex_ci 4 ++ [dash]
  ++ repeat hex_ci 4 ++ [dash] ++ repeat hex_ci 12.

Fixpoint match_classes (p : list (ascii -> bool)) (l : list ascii) : bool :=
  match p, l with
  | [], [] => true
  | cls :: p', c :: l' => cls c && match_classes p' l'
  | _, _ => false
  end.

(** [validateUUID] (lines 68-71). *)
Definition validateUUID (id : string) : bool :=
  match_classes uuid_pattern (list_ascii_of_string id).

(** The positions of the four dashes in [uuidRegex]. *)
Definition uuid_dash_pos (i : nat) : bool := ((i =? 8) || (i =? 13) || (i =? 18) || (i =? 23))%nat.

(** [corsMiddleware] (lines 73-91): the headers it sets, the status it
    assigns, and whether it calls [next]. [origin] is the request's
    [Origin] header ([None] when absent). *)
Record cors_outcome := mk_cors {
  cors_headers : list (string * string);
  cors_status : option Z;
  cors_calls_next : bool
}.

Definition corsMiddleware (origin : option string) (method : string) : cors_outcome :=
  let origin := match origin with
                | Some o => if String.eqb o EmptyString then "*" else o
                | None => "*"
                end in
  let hs := [("Access-Control-Allow-Origin", origin);
             ("Access-Control-Allow-Methods", "GET, POST, PUT, DELETE, OPTIONS");
             ("Access-Control-Allow-Headers", "Content-Type, Authorization");
             ("Access-Control-Allow-Credentials", "true")] in
  if String.eqb method "OPTIONS" then mk_cors hs (Some 204) false
  else mk_cors hs None true.

(* ================================================================== *)
(** ** Tables and queries of [database.js] (lines 109-266)

    A table is a list of rows; no property below depends on the order of
    the rows. Timestamps ([CURRENT_TIMESTAMP]) are milliseconds, passed in
    as [now]; the identifiers [crypto.randomUUID()] draws are passed in as
    arguments. A failed constraint is the exception the query throws. *)

Record user_row := mk_user {
  u_id : string;
  appwrite_user_id : string;
  email : string;
  u_created_at : Z;
  u_updated_at : Z
}.

Record function_row := mk_function {
  f_id : string;
  f_user_id : string;
  f_name : string;
  f_code : string;
  f_enabled : bool;
  f_created_at : Z;
  f_updated_at : Z
}.

Inductive db_error :=
| UniqueViolation
| ForeignKeyViolation.

(** [getUser] (lines 109-119). *)
Definition getUser (us : list user_row) (appwriteUserId : string) : option user_row :=
  find (fun u => String.eqb u.(appwrite_user_id) appwriteUserId) us.

(** [createOrUpdateUser] (lines 121-136): [INSERT ... ON CONFLICT
    (appwrite_user_id) DO UPDATE SET email, updated_at RETURNING *]. *)
Definition createOrUpdateUser (us : list user_row) (userId appwriteUserId email : string)
    (now : Z) : user_row * list user_row :=
  match getUser us appwriteUserId with
  | Some u =>
      let u' := mk_user u.(u_id) u.(appwrite_user_id) email u.(u_created_at) now in
      (u', map (fun x => if String.eqb x.(appwrite_user_id) appwriteUserId then u' else x) us)
  | None =>
      let u' := mk_user userId appwriteUserId email now now in
      (u', us ++ [u'])
  end.

(** [createFunction] (lines 138-151): the primary key and
    [UNIQUE(user_id, name)] are checked as the row goes in, the foreign
    key to [users] at the end of the statement. *)
Definition createFunction (us : list user_row) (fs : list function_row)
    (functionId userId name code : string) (now : Z)
  : db_error + (function_row * list function_row) :=
  if existsb (fun f => String.eqb f.(f_id) functionId) fs then inl UniqueViolation
  else if existsb (fun f => String.eqb f.(f_user_id) userId && String.eqb f.(f_name) name) fs
  then inl UniqueViolation
  else if negb (existsb (fun u => String.eqb u.(u_id) userId) us) then inl ForeignKeyViolation
  else let f := mk_function functionId userId name code true now now in inr (f, fs ++ [f]).

Definition owned (functionId userId : string) (f : function_row) : bool :=
  String.eqb f.(f_id) functionId && String.eqb f.(f_user_id) userId.

(** [getFunction] (lines 153-163) and [getFunctionById] (lines 165-175). *)
Definition getFunction (fs : list function_row) (functionId userId : string) : option function_row :=
  find (owned functionId userId) fs.

Definition getFunctionById (fs : list function_row) (functionId : string) : option function_row :=
  find (fun f => String.eqb f.(f_id) functionId) fs.

(** [updateFunctionCode] (lines 190-202): [UPDATE ... WHERE id AND user_id
    RETURNING *], then [rows[0]]. *)
Definition updateFunctionCode (fs : list function_row) (functionId userId code : string) (now : Z)
  : option function_row * list function_row :=
  let upd f := if owned functionId userId f
               then mk_function f.(f_id) f.(f_user_id) f.(f_name) code f.(f_enabled)
                      f.(f_created_at) now
               else f in
  let fs' := map upd fs in
  (find (owned functionId userId) fs', fs').

(** [updateFunctionStatus] ([utils.js], lines 291-303). *)
Definition updateFunctionStatus (fs : list function_row) (functionId userId : string)
    (enabled : bool) (now : Z) : option function_row * list function_row :=
  let upd f := if owned functionId userId f
               then mk_function f.(f_id) f.(f_user_id) f.(f_name) f.(f_code) enabled
                      f.(f_created_at) now
               else f in
  let fs' := map upd fs in
  (find (owned functionId userId) fs', fs').

(** [deleteFunction] (lines 204-214), with the [ON DELETE CASCADE] of
    [executions.function_id]. *)
Definition deleteFunction (fs : list function_row) (xs : list execution_row)
    (functionId userId : string) : list function_row * list execution_row * bool :=
  let gone := List.filter (owned functionId userId) fs in
  let fs' := List.filter (fun f => negb (owned functionId userId f)) fs in
  let xs' := List.filter (fun x => negb (existsb (fun f => String.eqb x.(x_function_id) f.(f_id)) gone)) xs in
  (fs', xs', true).

(** [initializeQuota] (lines 241-252): [INSERT ... ON CONFLICT (user_id)
    DO NOTHING], the other columns taking their defaults. The row's
    foreign key holds at its one call site, after [requireAuth]. *)
Definition initializeQuota (qs : gmap string quota_row) (userId quotaId : string) (now : Z)
  : gmap string quota_row :=
  match qs !! userId with
  | Some _ => qs
  | None => <[userId := mk_quota quotaId 0 0 now]> qs
  end.

Definition DAY_MS : Z := 24 * 60 * 60 * 1000.

(** [resetDailyQuotas] ([utils.js], lines 369-381). *)
Definition resetDailyQuotas (qs : gmap string quota_row) (now : Z) : gmap string quota_row :=
  (fun r => if r.(last_reset_at) <? now - DAY_MS
            then mk_quota r.(q_id) 0 r.(concurrent_count) now
            else r) <$> qs.

(* ================================================================== *)
(** ** [getAuthUser] and [requireAuth] ([auth.js], lines 52-72)

    [verifyToken] (the Appwrite round trip and the user upsert) is a
    parameter: the user it yields for a token, if any. *)

Definition getAuthUser {U : Type} (authorization : option string)
    (verifyToken : string -> option U) : option U :=
  match authorization with
  | None => None
  | Some authHeader =>
      if String.eqb authHeader EmptyString then None
      else if String.prefix "Bearer " authHeader
      then verifyToken (String.substring 7 (String.length authHeader - 7) authHeader)
      else None
  end.

(** [Unauthorized]: status 401 with body [{ error: "Unauthorized" }], and
    [next] is not called. [Authorized u]: [ctx.state.user = u], then
    [next]. *)
Inductive auth_outcome (U : Type) :=
| Unauthorized
| Authorized (user : U).
Arguments Unauthorized {U}.
Arguments Authorized {U} user.

Definition requireAuth {U : Type} (authorization : option string)
    (verifyToken : string -> option U) : auth_outcome U :=
  match getAuthUser authorization verifyToken with
  | None => Unauthorized
  | Some user => Authorized user
  end.

(* ================================================================== *)
(** ** Routes of the control plane ([unnamed/part_001], the [main.js]
    that imports [executor.js])

    A response is its status and the body the handler gives
    [formatError] or [formatSuccess], without the [timestamp]. *)

Record db := mk_db {
  db_users : list user_row;
  db_functions : list function_row;
  db_quotas : gmap string quota_row;
  db_executions : list execution_row
}.

Inductive resp_body :=
| BError (message : string)                    (* formatError(message) *)
| BDbError (e : db_error)                      (* the global handler's formatError(error.message) *)
| BDeployed (id name : string) (createdAt : Z) (* formatSuccess({ id, name, createdAt }) *)
| BFunction (f : option function_row)          (* formatSuccess(func) *)
| BMessage (message : string)                  (* formatSuccess({ message }) *)
| BEmpty
| BTypeError.                                  (* the global handler's formatError(error.message)
                                                  of a TypeError thrown by the handler *)

Record response := mk_response {
  r_status : Z;
  r_body : resp_body
}.

Definition set_functions (d : db) (fs : list function_row) : db :=
  mk_db d.(db_users) fs d.(db_quotas) d.(db_executions).

(** [POST /deploy] (lines 138-166), for a JSON object body. *)
Definition deploy_route (d : db) (user : user_row) (body : list (string * json))
    (functionId quotaId : string) (now : Z) : response * db :=
  let name := obj_get body "name" in
  let code := obj_get body "code" in
  match validateFunctionName name with
  | Invalid e => (mk_response 400 (BError e), d)
  | Valid =>
  match validateCode code with
  | Invalid e => (mk_response 400 (BError e), d)
  | Valid =>
  let n := match name with Some (JStr s) => s | _ => EmptyString end in
  let c := match code with Some (JStr s) => s | _ => EmptyString end in
  match createFunction d.(db_users) d.(db_functions) functionId user.(u_id) n c now with
  | inl e => (mk_response 500 (BDbError e), d)
  | inr (func, fs) =>
      (mk_response 201 (BDeployed func.(f_id) func.(f_name) func.(f_created_at)),
       mk_db d.(db_users) fs (initializeQuota d.(db_quotas) user.(u_id) quotaId now)
         d.(db_executions))
  end
  end
  end.



(** [GET /functions/:id] (lines 179-197). *)
Definition get_function_route (d : db) (user : user_row) (id : string) : response :=
  if negb (validateUUID id) then mk_response 400 (BError "Invalid UUID format")
  else match getFunction d.(db_functions) id user.(u_id) with
       | None => mk_response 404 (BError "Function not found")
       | Some func => mk_response 200 (BFunction (Some func))
       end.

(** [PUT /functions/:id/status] (lines 210-215), for a request body that
    is an object whose [enabled] is a JSON boolean. The handler checks
    nothing: a missing body throws a [TypeError] (status 500), a missing
    [enabled] stores [NULL] in the nullable column, and any other value is
    handed to PostgreSQL's boolean input; those requests are not modelled. *)
Definition status_route (d : db) (user : user_row) (id : string) (enabled : bool) (now : Z)
  : response * db :=
  let '(updated, fs) := updateFunctionStatus d.(db_functions) id user.(u_id) enabled now in
  (mk_response 200 (BFunction updated), set_functions d fs).

(** [DELETE /functions/:id] (lines 218-221). *)
Definition delete_route (d : db) (user : user_row) (id : string) : response * db :=
  let '(fs, xs, _) := deleteFunction d.(db_functions) d.(db_executions) id user.(u_id) in
  (mk_response 204 BEmpty, mk_db d.(db_users) fs d.(db_quotas) xs).

(** [GET /run/:id] up to the call of [executeFunction] (lines 224-255):
    [input] is the query parameter ([None] when absent). *)
Inductive run_start :=
| RunRejected (status : Z) (message : string)
| RunExecute (func : function_row) (parsedInput : json).

Definition run_prechecks (fs : list function_row) (id : string) (input : option string) : run_start :=
  if negb (validateUUID id) then RunRejected 400 "Invalid function ID format"
  else match getFunctionById fs id with
       | Some func =>
           if func.(f_enabled) then
             match input with
             | Some s =>
                 if String.eqb s EmptyString then RunExecute func JNull
                 else match JSON_parse s with
                      | Some v => RunExecute func v
                      | None => RunRejected 400 "Invalid JSON in input parameter"
                      end
             | None => RunExecute func JNull
             end
           else RunRejected 404 "Function not found or disabled"
       | None => RunRejected 404 "Function not found or disabled"
       end.

(** The whole handler, with [executeFunction] a parameter: the call it
    makes ([functionId], [userId], [code], [inputData]) and the answer. *)
Inductive run_answer :=
| RunError (status : Z) (message : string)
| RunAnswered (functionId userId code : string) (inputData : json) (resp : run_response).

Definition run_route (executeFunction : string -> string -> string -> json -> ExecResult)
    (fs : list function_row) (id : string) (input : option string) : run_answer :=
  match run_prechecks fs id input with
  | RunRejected st m => RunError st m
  | RunExecute func parsedInput =>
      RunAnswered id func.(f_user_id) func.(f_code) parsedInput
        (capture_response (executeFunction id func.(f_user_id) func.(f_code) parsedInput))
  end.

(** [POST /admin/reset-quotas] of the [main.js] copy in [database.js]
    (lines 631-647): [adminKey !== Deno.env.get("ADMIN_KEY")], where a
    missing header is [null] and a missing variable [undefined]. *)
Definition admin_reset_route (adminKey ADMIN_KEY : option string) (qs : gmap string quota_row)
    (now : Z) : response * gmap string quota_row :=
  match adminKey, ADMIN_KEY with
  | Some k, Some k' =>
      if String.eqb k k' then (mk_response 200 (BMessage "Daily quotas reset"), resetDailyQuotas qs now)
      else (mk_response 401 (BError "Invalid admin key"), qs)
  | _, _ => (mk_response 401 (BError "Invalid admin key"), qs)
  end.

(* ================================================================== *)
(** ** The claims' own definitions *)

(** The admission rejection a claim describes: the machine ceiling, a
    missing quota row, the user concurrency ceiling and the CPU budget,
    in that order, with the message of each. *)
Definition claimed_rejection (w : world) (userId : string) : option string :=
  if 50 <=? w.(currentInstanceCount) then Some machine_capacity_msg
  else match w.(quotas) !! userId with
       | None => Some quota_not_initialized_msg
       | Some q =>
           if 10 <=? q.(concurrent_count) then Some user_concurrency_msg
           else if 7200000 <=? q.(cpu_time_used_ms) then Some user_cpu_msg
           else None
       end.

(** Concrete inputs: a quota table with the single user ["u"], and a
    machine with [n] instances running. *)
Definition example_table (concurrent cpu : Z) : gmap string quota_row :=
  <["u" := mk_quota "q" cpu concurrent 0]> ∅.

Definition example_world (n concurrent cpu : Z) : world :=
  mk_world n (example_table concurrent cpu) [].

Definition example_wenv : worker_env :=
  mk_worker_env None None None (WSuccess 5) "1" 5 None None.

Definition example_penv (stderr : string) : proc_env :=
  mk_proc_env None None None "/tmp/x.js" None None (PCompleted true "1" stderr) 5 None None.

(** Characters other than blanks; C7 allows a program any surrounding
    whitespace. *)
Definition is_blank (c : ascii) : bool :=
  Ascii.eqb c " " || Ascii.eqb c ch_nl || Ascii.eqb c (ascii_of_nat 9) ||
  Ascii.eqb c (ascii_of_nat 13).

Fixpoint nonblank_count (s : string) : nat :=
  match s with
  | EmptyString => 0
  | String c s' => ((if is_blank c then 0 else 1) + nonblank_count s')%nat
  end.

(** The program text C7 describes: one declaration of [input] bound to
    the serialized input, then the user's code verbatim, with only
    whitespace around them. *)
Definition claimed_program_shape (text : string) (input : json) (code : string) : Prop :=
  exists ws1 ws2 ws3,
    nonblank_count ws1 = 0%nat /\ nonblank_count ws2 = 0%nat /\ nonblank_count ws3 = 0%nat /\
    text = ws1 +:+ "const input = " +:+ JSON_stringify input +:+ ";" +:+ ws2 +:+ code +:+ ws3.

(** C8: the headers of a parsed envelope can all be set. *)
Definition headers_settable (kvs : list (string * json)) : Prop :=
  forall h es, obj_get kvs "headers" = Some h -> header_entries h = Some es ->
               set_headers es <> None.

(** C8: the conditions under which the handler answers with the
    function's own HTTP response. *)
Definition envelope_condition (result : ExecResult) : Prop :=
  exists out kvs m e,
    res_status result = "success" /\ res_output result = Some out /\ out <> EmptyString /\
    JSON_parse out = Some (JObj kvs) /\ obj_get kvs "status" = Some (JNum m e) /\
    headers_settable kvs.

(** [{"status":200,"headers":{"Content-Type":"application/json"},"body":"{\"x\":1}"}] *)
Definition example_stdout : string :=
  let q := s_of ch_quote in
  let bq := s_of ch_backslash +:+ q in
  "{" +:+ q +:+ "status" +:+ q +:+ ":200," +:+ q +:+ "headers" +:+ q +:+ ":{"
  +:+ q +:+ "Content-Type" +:+ q +:+ ":" +:+ q +:+ "application/json" +:+ q +:+ "},"
  +:+ q +:+ "body" +:+ q +:+ ":" +:+ q +:+ "{" +:+ bq +:+ "x" +:+ bq +:+ ":1}" +:+ q +:+ "}".

(** [{"status":42,"headers":{},"body":"hi"}] *)
Definition status42_stdout : string :=
  let q := s_of ch_quote in
  "{" +:+ q +:+ "status" +:+ q +:+ ":42," +:+ q +:+ "headers" +:+ q +:+ ":{},"
  +:+ q +:+ "body" +:+ q +:+ ":" +:+ q +:+ "hi" +:+ q +:+ "}".

(** C9: an output of [n] copies of one character. *)
Fixpoint repeat_char (n : nat) (c : ascii) : string :=
  match n with
  | O => EmptyString
  | S n' => String c (repeat_char n' c)
  end.

(** One character more than [sanitizeOutput] keeps, and less than 1 MiB. *)
Definition long_output : string := repeat_char (S OUTPUT_LIMIT) "a".

(** The shape the claims give an [ExecutionResult]. *)
Definition error_shape (r : ExecResult) : Prop :=
  res_status r = "error" -> res_output r = None /\ is_Some (res_error r).

Definition result_shape (r : ExecResult) : Prop :=
  (res_status r = "success" -> is_Some (res_output r) /\ res_error r = None) /\
  error_shape r.

(** In [auth.js] a successful run keeps a non-empty [stderr] as its error. *)
Definition subprocess_shape (env : proc_env) (r : ExecResult) : Prop :=
  (res_status r = "success" ->
     is_Some (res_output r) /\
     (res_error r = None \/
      exists out err, env.(pe_outcome) = PCompleted true out err /\
                      err <> EmptyString /\ res_error r = Some err)) /\
  error_shape r.

(** Every exception the code can catch carries a [message]. *)
Definition message_defined (t : throws) : Prop := t <> Some None.

Definition worker_messages_defined (env : worker_env) : Prop :=
  message_defined env.(we_getQuota) /\ message_defined env.(we_updateQuota1) /\
  message_defined env.(we_spawn) /\ message_defined env.(we_updateQuota2) /\
  message_defined env.(we_logExecution).

(** In [executor.js] an error result has no output, and its error is
    missing only when the Worker posted [{status: "error"}] without an
    [error] field, which the user's code can do with [self.postMessage]
    (lines 160-166 then resolve [error: data.error], [undefined]). *)
Definition worker_shape (env : worker_env) (r : ExecResult) : Prop :=
  (res_status r = "success" -> is_Some (res_output r) /\ res_error r = None) /\
  (res_status r = "error" ->
     res_output r = None /\
     (is_Some (res_error r) \/ exists t, env.(we_message) = WError None t)).

Definition proc_messages_defined (env : proc_env) : Prop :=
  message_defined env.(pe_getQuota) /\ message_defined env.(pe_updateQuota1) /\
  message_defined env.(pe_makeTempFile) /\ message_defined env.(pe_writeTextFile) /\
  message_defined env.(pe_run) /\ message_defined env.(pe_updateQuota2) /\
  message_defined env.(pe_logExecution).

(** What an invocation suspended at [pc] has already established. *)
Definition good_pc (env : worker_env) (pc : wpc) : Prop :=
  match pc with
  | WP_returned r => worker_shape env r
  | WP_await_updateQuota2 _ res _ | WP_await_logExecution _ res _ =>
      resolve_message env.(we_message) env.(we_console) = Some res
  | _ => True
  end.

(* ================================================================== *)
(** ** Lemmas on the database *)

Lemma updateQuota_lookup_eq (qs : gmap string quota_row) (u : string) (d c : Z) (r : quota_row) :
  qs !! u = Some r ->
  updateQuota qs u d c !! u =
    Some (mk_quota r.(q_id) (r.(cpu_time_used_ms) + d) c r.(last_reset_at)).
Proof. intros E. unfold updateQuota. rewrite E. by rewrite lookup_insert_eq. Qed.

Lemma updateQuota_lookup_ne (qs : gmap string quota_row) (u u' : string) (d c : Z) :
  u' <> u -> updateQuota qs u d c !! u' = qs !! u'.
Proof.
  intros Hne. unfold updateQuota. destruct (qs !! u); [|done].
  by rewrite lookup_insert_ne.
Qed.

Lemma wrun_S (n : nat) env fid uid w pc :
  wrun (S n) env fid uid w pc =
    let '(w', pc') := wstep env fid uid w pc in wrun n env fid uid w' pc'.
Proof. reflexivity. Qed.

Lemma wrun_returned (n : nat) env fid uid w r :
  wrun n env fid uid w (WP_returned r) = (w, WP_returned r).
Proof. induction n; simpl; auto. Qed.

Lemma machine_check_none (n : Z) : n < 50 -> machine_check n = None.
Proof.
  intros H. unfold machine_check, MAX_INSTANCES_PER_MACHINE.
  destruct (Z.leb_spec 50 n); [lia|done].
Qed.

Lemma quota_checks_admit (q : quota_row) :
  concurrent_count q < 10 -> cpu_time_used_ms q < 7200000 -> quota_checks (Some q) = Admit q.
Proof.
  intros H1 H2. unfold quota_checks, MAX_CONCURRENT_EXECUTIONS, MAX_CPU_TIME_MS.
  destruct (Z.leb_spec 10 (concurrent_count q)); [lia|].
  destruct (Z.leb_spec (2 * 60 * 60 * 1000) (cpu_time_used_ms q)); [lia|done].
Qed.

(* ================================================================== *)
(** ** Theorems *)

(** C10: [updateQuota] on an existing row adds [cpuTimeUsedMs] to the
    stored CPU time and overwrites [concurrent_count] with the given
    value, keeping the row's id and [last_reset_at] and every other
    user's row; the settlement write of [executeFunction] passes the
    admission snapshot's count minus one, whatever the table holds. *)
Theorem C10_updateQuota_overwrites_concurrent_count
    (table : gmap string quota_row) (userId : string) (cpuTimeUsedMs concurrentCount : Z)
    (r : quota_row) :
  table !! userId = Some r ->
  updateQuota table userId cpuTimeUsedMs concurrentCount !! userId =
    Some (mk_quota r.(q_id) (r.(cpu_time_used_ms) + cpuTimeUsedMs) concurrentCount
            r.(last_reset_at)) /\
  (forall u, u <> userId ->
     updateQuota table userId cpuTimeUsedMs concurrentCount !! u = table !! u) /\
  (forall env functionId w snapshot result t,
     env.(we_updateQuota2) = None ->
     (wstep env functionId userId w (WP_await_updateQuota2 snapshot result t)).1.(quotas)
       = updateQuota w.(quotas) userId t (snapshot.(concurrent_count) - 1)).
Proof.
  intros E. split; [by apply updateQuota_lookup_eq|]. split.
  - intros u Hu. by apply updateQuota_lookup_ne.
  - intros env functionId w snapshot result t Henv. simpl. by rewrite Henv.
Qed.

Lemma C10_updateQuota_overwrites_concurrent_count_witness :
  example_table 3 5 !! "u" = Some (mk_quota "q" 5 3 0) /\
  updateQuota (example_table 3 5) "u" 100 7 !! "u" = Some (mk_quota "q" 105 7 0).
Proof.
  assert (E : example_table 3 5 !! "u" = Some (mk_quota "q" 5 3 0)) by (vm_compute; reflexivity).
  split; [exact E|].
  exact (proj1 (C10_updateQuota_overwrites_concurrent_count
                  (example_table 3 5) "u" 100 7 (mk_quota "q" 5 3 0) E)).
Defined.

(** C3: when admission rejects (machine at 50 or more, no quota row,
    [concurrent_count] at 10 or more, CPU time at [MAX_CPU_TIME_MS] or
    more, checked in that order), both versions of [executeFunction]
    return [status = "error"] with that rejection's message and
    [executionTimeMs = 0], and leave the whole state as it was: no
    execution row, the quota row untouched, the instance counter
    unchanged, and (subprocess version) no effect on the system. *)
Theorem C3_admission_rejection_short_circuits
    (wenv : worker_env) (penv : proc_env) (functionId userId code : string)
    (inputData : json) (w : world) (msg : string) :
  claimed_rejection w userId = Some msg ->
  (50 <= w.(currentInstanceCount) \/
   (wenv.(we_getQuota) = None /\ penv.(pe_getQuota) = None)) ->
  executeFunction_worker wenv functionId userId w = Returned (error_result (Some msg) 0) w /\
  executeFunction_subprocess penv functionId userId code inputData w =
    (error_result (Some msg) 0, w, []).
Proof.
  intros Hrej Hq.
  unfold claimed_rejection in Hrej.
  unfold executeFunction_worker, executeFunction_subprocess.
  rewrite wrun_S. unfold wstep at 1. unfold machine_check, MAX_INSTANCES_PER_MACHINE.
  destruct (Z.leb_spec 50 (currentInstanceCount w)) as [Hm|Hm].
  - injection Hrej as <-. simpl; rewrite ?wrun_returned; done.
  - destruct Hq as [Hq|[Hw Hp]]; [lia|].
    rewrite wrun_S. unfold wstep at 1. rewrite Hw, Hp.
    unfold quota_checks, getQuota, MAX_CONCURRENT_EXECUTIONS, MAX_CPU_TIME_MS.
    replace (2 * 60 * 60 * 1000) with 7200000 by lia.
    destruct (quotas w !! userId) as [q|].
    + destruct (Z.leb_spec 10 (concurrent_count q)).
      { injection Hrej as <-. simpl; rewrite ?wrun_returned; done. }
      destruct (Z.leb_spec 7200000 (cpu_time_used_ms q)); [|discriminate].
      injection Hrej as <-. simpl; rewrite ?wrun_returned; done.
    + injection Hrej as <-. simpl; rewrite ?wrun_returned; done.
Qed.

Lemma C3_admission_rejection_short_circuits_witness :
  claimed_rejection (example_world 50 0 0) "u" = Some machine_capacity_msg /\
  executeFunction_worker (mk_worker_env None None None (WSuccess 1) "out" 10 None None)
    "f" "u" (example_world 50 0 0) =
    Returned (error_result (Some machine_capacity_msg) 0) (example_world 50 0 0).
Proof.
  assert (H : claimed_rejection (example_world 50 0 0) "u" = Some machine_capacity_msg)
    by reflexivity.
  split; [exact H|].
  refine (proj1 (C3_admission_rejection_short_circuits
    (mk_worker_env None None None (WSuccess 1) "out" 10 None None)
    (mk_proc_env None None None "/tmp/x.js" None None PTimedOut 0 None None)
    "f" "u" "return 1;" JNull (example_world 50 0 0) machine_capacity_msg H _)).
  left. simpl. lia.
Defined.

(** C1 (as the code behaves): an admitted invocation does not always
    restore the counters. From [concurrent_count = 0] and no instance
    running: a sandbox that completes leaves [concurrent_count = -1]
    (settlement writes the snapshot's count minus one, after admission
    already wrote it plus one), in both versions; a completion over the
    CPU budget leaves [concurrent_count = 1] (the early [return] skips
    the settlement write); a failing first [updateQuota] leaves
    [currentInstanceCount = 1] (the increment sits outside the inner
    [try]/[finally]). *)
Theorem C1_counters_not_restored :
  executeFunction_worker (mk_worker_env None None None (WSuccess 5) "out" 2000 None None)
    "f" "u" (example_world 0 0 0) =
    Returned (mk_result "success" (Some "out") None 2000)
      (mk_world 0 (example_table (-1) 2000)
         [mk_execution "f" "u" "success" (Some "out") None 2000]) /\
  executeFunction_subprocess
    (mk_proc_env None None None "/tmp/x.js" None None (PCompleted true "out" EmptyString) 2000 None None)
    "f" "u" "return 1;" JNull (example_world 0 0 0) =
    (mk_result "success" (Some "out") None 2000,
     mk_world 0 (example_table (-1) 2000)
       [mk_execution "f" "u" "success" (Some "out") None 2000],
     [E_makeTempFile "/tmp/x.js";
      E_writeTextFile "/tmp/x.js" (subprocess_wrappedCode JNull "return 1;");
      E_run (deno_cmd "/tmp/x.js"); E_close; E_remove "/tmp/x.js"]) /\
  executeFunction_worker (mk_worker_env None None None (WSuccess 5) "out" 2000 None None)
    "f" "u" (example_world 0 0 7199000) =
    Returned (error_result (Some cpu_would_exceed_msg) 2000)
      (example_world 0 1 7199000) /\
  executeFunction_worker (mk_worker_env None (Some (Some "connection lost")) None (WSuccess 5) "out" 2000 None None)
    "f" "u" (example_world 0 0 0) =
    Returned (catch_result (Some "connection lost")) (example_world 1 0 0).
Proof. vm_compute. repeat split; reflexivity. Qed.

Lemma observed_final (sched : list nat) (s : system) :
  In (run_schedule s sched).1 (observed s sched).
Proof.
  revert s. induction sched as [|i r IH]; intros s; simpl.
  - by left.
  - right. apply IH.
Qed.

Lemma example_world_within_limits (n c cpu : Z) :
  n <= 50 -> c <= 10 -> within_limits (example_world n c cpu).
Proof.
  intros Hn Hc. split; [exact Hn|].
  apply map_Forall_insert_2; [exact Hc|]. apply map_Forall_empty.
Qed.

(** C2 (as the code behaves): the machine ceiling is checked before
    [await getQuota] and the counter is incremented after it, so
    invocations that all pass the check before any of them resumes are
    all admitted. Fifty-one invocations by one user on an idle machine
    reach [currentInstanceCount = 51]; from 49 running instances, two
    concurrent invocations are both admitted and reach 51. Hence the
    invariant "at every observed state the counter is at most 50 and
    every [concurrent_count] at most 10" fails on some trace. *)
Theorem C2_machine_ceiling_overrun :
  (run_schedule
     (example_world 0 0 0,
      replicate 51 (mk_thread (mk_worker_env None None None (WSuccess 5) "out" 2000 None None)
                      "f" "u" WP_start))
     (seq 0 51 ++ seq 0 51)).1.(currentInstanceCount) = 51 /\
  (run_schedule
     (example_world 49 0 0,
      replicate 2 (mk_thread (mk_worker_env None None None (WSuccess 5) "out" 2000 None None)
                     "f" "u" WP_start))
     [0; 1; 0; 1]%nat).1.(currentInstanceCount) = 51 /\
  ~ (forall (w : world) (ts : list thread) (sched : list nat),
       within_limits w -> all_fresh ts -> Forall within_limits (observed (w, ts) sched)).
Proof.
  split; [vm_compute; reflexivity|]. split; [vm_compute; reflexivity|].
  intros H.
  set (ts := replicate 51 (mk_thread (mk_worker_env None None None (WSuccess 5) "out" 2000 None None)
                             "f" "u" WP_start)).
  set (sched := (seq 0 51 ++ seq 0 51)%nat).
  assert (Hfinal : (run_schedule (example_world 0 0 0, ts) sched).1.(currentInstanceCount) = 51)
    by (vm_compute; reflexivity).
  assert (Hall : Forall within_limits (observed (example_world 0 0 0, ts) sched)).
  { apply H.
    - apply example_world_within_limits; lia.
    - unfold all_fresh, ts. apply Forall_replicate. reflexivity. }
  rewrite Forall_forall in Hall.
  destruct (Hall _ (proj2 (list_elem_of_In _ _) (observed_final sched (example_world 0 0 0, ts))))
    as [Hc _].
  rewrite Hfinal in Hc. unfold MAX_INSTANCES_PER_MACHINE in Hc. lia.
Qed.

(** C4 (counterexample): a user at [MAX_CPU_TIME_MS - 1000] whose
    sandbox completes in 2000 ms is not billed: the stored CPU time stays
    at [MAX_CPU_TIME_MS - 1000], not [MAX_CPU_TIME_MS + 1000]. *)
Lemma C4_overbudget_billed_counterexample :
  ~ (exists r w',
       executeFunction_worker (mk_worker_env None None None (WSuccess 5) "out" 2000 None None)
         "f" "u" (example_world 0 0 (MAX_CPU_TIME_MS - 1000)) = Returned r w' /\
       res_status r = "error" /\
       option_map cpu_time_used_ms (quotas w' !! "u") = Some (MAX_CPU_TIME_MS + 1000)).
Proof.
  intros (r & w' & E & _ & H).
  vm_compute in E. injection E as <- <-. vm_compute in H. discriminate.
Qed.

(** C4 (amended): when an admitted invocation's sandbox completes and
    the snapshot's CPU time plus the elapsed time exceeds
    [MAX_CPU_TIME_MS], both versions return [status = "error"] with
    ["Execution would exceed CPU time quota"] and the elapsed time, and
    bill nothing: the stored [cpu_time_used_ms] is unchanged and no
    execution row is written. *)
Theorem C4_overbudget_rejected_unbilled
    (wenv : worker_env) (penv : proc_env) (functionId userId code : string)
    (inputData : json) (w : world) (q : quota_row)
    (success : bool) (stdout stderr : string) :
  w.(quotas) !! userId = Some q ->
  currentInstanceCount w < 50 -> concurrent_count q < 10 -> cpu_time_used_ms q < 7200000 ->
  wenv.(we_getQuota) = None -> wenv.(we_updateQuota1) = None -> wenv.(we_spawn) = None ->
  wenv.(we_message) <> WNoEvent -> 7200000 < cpu_time_used_ms q + wenv.(we_elapsed) ->
  penv.(pe_getQuota) = None -> penv.(pe_updateQuota1) = None ->
  penv.(pe_makeTempFile) = None -> penv.(pe_writeTextFile) = None -> penv.(pe_run) = None ->
  penv.(pe_outcome) = PCompleted success stdout stderr ->
  7200000 < cpu_time_used_ms q + penv.(pe_elapsed) ->
  (exists w', executeFunction_worker wenv functionId userId w =
                Returned (error_result (Some cpu_would_exceed_msg) wenv.(we_elapsed)) w' /\
              option_map cpu_time_used_ms (w'.(quotas) !! userId) = Some (cpu_time_used_ms q) /\
              w'.(executions) = w.(executions)) /\
  (exists w' effs, executeFunction_subprocess penv functionId userId code inputData w =
                     (error_result (Some cpu_would_exceed_msg) penv.(pe_elapsed), w', effs) /\
                   option_map cpu_time_used_ms (w'.(quotas) !! userId) = Some (cpu_time_used_ms q) /\
                   w'.(executions) = w.(executions)).
Proof.
  intros Hq Hn Hc Hcpu Hg Hu1 Hs Hm Hover Pg Pu1 Pmk Pwr Prun Pout Pover.
  split.
  - destruct wenv as [g u1 sp msg cons el u2 lg]; simpl in *; subst.
    unfold executeFunction_worker. cbn.
    rewrite (machine_check_none _ Hn). cbn.
    unfold getQuota. rewrite Hq, (quota_checks_admit _ Hc Hcpu). cbn.
    assert (Ho : (MAX_CPU_TIME_MS <? cpu_time_used_ms q + el) = true).
    { apply Z.ltb_lt. unfold MAX_CPU_TIME_MS. lia. }
    destruct msg; try congruence; cbn; rewrite Ho; cbn; eexists; (split; [reflexivity|]); cbn;
      rewrite (updateQuota_lookup_eq _ _ _ _ q Hq); cbn; split; auto; f_equal; lia.
  - destruct penv as [g u1 mk tmp wr run out el u2 lg]; simpl in *; subst.
    unfold executeFunction_subprocess. rewrite (machine_check_none _ Hn). cbn.
    unfold getQuota. rewrite Hq, (quota_checks_admit _ Hc Hcpu). cbn.
    assert (Ho : (MAX_CPU_TIME_MS <? cpu_time_used_ms q + el) = true).
    { apply Z.ltb_lt. unfold MAX_CPU_TIME_MS. lia. }
    rewrite Ho. cbn. do 2 eexists. split; [reflexivity|]. cbn.
    rewrite (updateQuota_lookup_eq _ _ _ _ q Hq). cbn. split; auto. f_equal. lia.
Qed.

Lemma C4_overbudget_rejected_unbilled_witness :
  exists w', executeFunction_worker (mk_worker_env None None None (WSuccess 5) "out" 2000 None None)
               "f" "u" (example_world 0 0 7199000) =
             Returned (error_result (Some cpu_would_exceed_msg) 2000) w' /\
             option_map cpu_time_used_ms (w'.(quotas) !! "u") = Some 7199000 /\
             w'.(executions) = [].
Proof.
  refine (proj1 (C4_overbudget_rejected_unbilled
    (mk_worker_env None None None (WSuccess 5) "out" 2000 None None)
    (mk_proc_env None None None "/tmp/x.js" None None (PCompleted true "out" EmptyString) 2000 None None)
    "f" "u" "return 1;" JNull (example_world 0 0 7199000) (mk_quota "q" 7199000 0 0)
    true "out" EmptyString _ _ _ _ _ _ _ _ _ _ _ _ _ _ _ _));
  first [vm_compute; reflexivity | simpl; lia | discriminate].
Defined.

(** C5 (as the code behaves), for user code that never ends, such as
    [while (true) {}]. Worker version: the 15 s timer only calls
    [worker.terminate()], so no listener fires, the result promise never
    settles and the invocation stays suspended forever, holding its
    machine slot and its [concurrent_count] increment. Subprocess
    version: the timer's rejection returns in time with the timeout
    message, but through the outer [catch], so [executionTimeMs = 0];
    and the child is neither killed nor closed (the effects after
    [Deno.run] are only the temp-file removal). *)
Theorem C5_infinite_loop_timeout :
  (forall (n : nat) (w : world) (q : quota_row),
     wrun n (mk_worker_env None None None WNoEvent EmptyString 15000 None None) "f" "u" w
       (WP_await_worker q) = (w, WP_await_worker q)) /\
  executeFunction_worker (mk_worker_env None None None WNoEvent EmptyString 15000 None None)
    "f" "u" (example_world 0 0 0) = Pending (example_world 1 1 0) /\
  executeFunction_subprocess
    (mk_proc_env None None None "/tmp/x.js" None None PTimedOut 15000 None None)
    "f" "u" "while (true) {}" JNull (example_world 0 0 0) =
    (error_result (Some timeout_msg) 0, example_world 0 1 0,
     [E_makeTempFile "/tmp/x.js";
      E_writeTextFile "/tmp/x.js" (subprocess_wrappedCode JNull "while (true) {}");
      E_run (deno_cmd "/tmp/x.js"); E_remove "/tmp/x.js"]).
Proof.
  split; [|split; vm_compute; reflexivity].
  intros n. induction n as [|n IH]; intros w q; [reflexivity|].
  rewrite wrun_S. simpl. apply IH.
Qed.

(* ================================================================== *)
(** ** Shape of the results *)

Lemma catch_result_shape (t : throws) (m : option string) :
  message_defined t -> t = Some m -> result_shape (catch_result m).
Proof.
  intros Hd ->. destruct m as [s|]; [|congruence].
  split; simpl; [discriminate|]. intros _. split; [done|eexists; done].
Qed.

Lemma error_result_shape (msg : string) (t : Z) : result_shape (error_result (Some msg) t).
Proof. split; simpl; [discriminate|]. intros _. split; [done|eexists; done]. Qed.

Lemma result_worker_shape (env : worker_env) (r : ExecResult) :
  result_shape r -> worker_shape env r.
Proof. intros [Hs He]. split; [done|]. intros Hst. destruct (He Hst). by split; [|left]. Qed.

Lemma final_result_shape (env : worker_env) (res : wresult) (t : Z) :
  resolve_message env.(we_message) env.(we_console) = Some res ->
  worker_shape env (final_result res t).
Proof.
  intros Hr. destruct (we_message env) eqn:E; simpl in Hr; try discriminate.
  all: injection Hr as <-.
  - split; simpl; [intros _; split; [eexists; done|done]|discriminate].
  - split; simpl; [discriminate|]. intros _. split; [done|].
    destruct message as [s|]; [left; eexists; done|right; eexists; done].
  - split; simpl; [discriminate|]. intros _. split; [done|left; eexists; done].
Qed.

Ltac catch_case H E := apply result_worker_shape; exact (catch_result_shape _ _ H E).

Lemma quota_checks_shape (q : option quota_row) (r : ExecResult) :
  quota_checks q = Reject r -> result_shape r.
Proof.
  unfold quota_checks. intros E. destruct q as [q|]; [|injection E as <-; apply error_result_shape].
  destruct (_ <=? _); [injection E as <-; apply error_result_shape|].
  destruct (_ <=? _); [injection E as <-; apply error_result_shape|discriminate].
Qed.

Lemma machine_check_shape (n : Z) (r : ExecResult) :
  machine_check n = Some r -> result_shape r.
Proof.
  unfold machine_check. destruct (_ <=? _); [|discriminate].
  intros E. injection E as <-. apply error_result_shape.
Qed.

Lemma wstep_good (env : worker_env) fid uid (w : world) (pc : wpc) :
  worker_messages_defined env -> good_pc env pc -> good_pc env (wstep env fid uid w pc).2.
Proof.
  intros (Hg & Hu1 & Hs & Hu2 & Hl) Hpc.
  destruct pc; simpl in *.
  - destruct (machine_check _) eqn:E; simpl; [|done].
    apply result_worker_shape. eapply machine_check_shape; eauto.
  - destruct (we_getQuota env) eqn:E; simpl; [catch_case Hg (eq_refl (Some o))|].
    destruct (quota_checks _) eqn:E2; simpl; [|done].
    apply result_worker_shape. eapply quota_checks_shape; eauto.
  - destruct (we_updateQuota1 env) eqn:E; simpl; [catch_case Hu1 (eq_refl (Some o))|].
    destruct (we_spawn env) eqn:E2; simpl; [catch_case Hs (eq_refl (Some o))|done].
  - destruct (resolve_message _ _) eqn:E; simpl; [|done].
    destruct (_ <? _); simpl; [apply result_worker_shape, error_result_shape|done].
  - destruct (we_updateQuota2 env) eqn:E; simpl; [catch_case Hu2 (eq_refl (Some o))|done].
  - destruct (we_logExecution env) eqn:E; simpl; [catch_case Hl (eq_refl (Some o))|].
    eapply final_result_shape; eauto.
  - done.
Qed.

Lemma wrun_good (n : nat) (env : worker_env) fid uid (w : world) (pc : wpc) :
  worker_messages_defined env -> good_pc env pc -> good_pc env (wrun n env fid uid w pc).2.
Proof.
  revert w pc. induction n as [|n IH]; intros w pc Hd Hpc; [done|].
  rewrite wrun_S. destruct (wstep env fid uid w pc) as [w' pc'] eqn:E.
  apply IH; [done|]. change pc' with (w', pc').2. rewrite <- E. by apply wstep_good.
Qed.

Lemma error_result_subprocess_shape env (msg : string) (t : Z) :
  subprocess_shape env (error_result (Some msg) t).
Proof. split; simpl; [discriminate|]. intros _. split; [done|eexists; done]. Qed.

Lemma subprocess_try_good env fid uid code input quota (w : world) :
  proc_messages_defined env ->
  match (subprocess_try env fid uid code input quota w).1.1 with
  | inl res => subprocess_shape env res
  | inr m => m <> None
  end.
Proof.
  intros (Hg & Hu1 & Hmk & Hwr & Hrun & Hu2 & Hl).
  unfold subprocess_try.
  destruct (pe_writeTextFile env) eqn:E; simpl; [congruence|].
  destruct (pe_run env) eqn:E2; simpl; [congruence|].
  destruct (pe_outcome env) as [success stdout stderr|] eqn:E3; simpl; [|discriminate].
  destruct (_ <? _); simpl; [apply error_result_subprocess_shape|].
  destruct (pe_updateQuota2 env) eqn:E4; simpl; [congruence|].
  destruct (pe_logExecution env) eqn:E5; simpl; [congruence|].
  destruct success; simpl.
  - split; simpl; [|discriminate]. intros _. split; [eexists; done|].
    destruct (String.eqb stderr EmptyString) eqn:Es; simpl; [by left|right].
    exists stdout, stderr. split; [done|]. split; [|done].
    intros ->. discriminate.
  - split; simpl; [discriminate|]. intros _. split; [done|eexists; done].
Qed.

Lemma subprocess_good env fid uid code input (w w' : world) r effs :
  proc_messages_defined env ->
  executeFunction_subprocess env fid uid code input w = (r, w', effs) ->
  subprocess_shape env r.
Proof.
  intros Hd E. pose proof (subprocess_try_good env fid uid code input) as Ht.
  pose proof Hd as (Hg & Hu1 & Hmk & Hwr & Hrun & Hu2 & Hl).
  unfold executeFunction_subprocess in E.
  destruct (machine_check _) eqn:Em.
  { injection E as <- _ _. destruct (machine_check_shape _ _ Em) as [_ He].
    split; [|done]. unfold machine_check in Em. destruct (_ <=? _); [|discriminate].
    injection Em as <-. discriminate. }
  destruct (pe_getQuota env) eqn:Eg.
  { injection E as <- _ _. destruct o as [s|]; [|congruence].
    split; simpl; [discriminate|]. intros _. split; [done|eexists; done]. }
  destruct (quota_checks _) as [rq|q] eqn:Eq.
  { injection E as <- _ _. destruct (quota_checks_shape _ _ Eq) as [Hs He].
    split; [|done]. intros Hst. destruct (Hs Hst) as [Ho Hr]. split; [done|by left]. }
  destruct (pe_updateQuota1 env) eqn:Eu.
  { injection E as <- _ _. destruct o as [s|]; [|congruence].
    split; simpl; [discriminate|]. intros _. split; [done|eexists; done]. }
  destruct (pe_makeTempFile env) eqn:Ek.
  { injection E as <- _ _. destruct o as [s|]; [|congruence].
    split; simpl; [discriminate|]. intros _. split; [done|eexists; done]. }
  specialize (Ht q (set_quotas (set_count w (currentInstanceCount w + 1))
     (updateQuota (quotas (set_count w (currentInstanceCount w + 1))) uid 0
        (concurrent_count q + 1))) Hd).
  destruct (subprocess_try _ _ _ _ _ _ _) as [[[res|m] w2] effs2]; simpl in Ht, E.
  - injection E as <- _ _. exact Ht.
  - injection E as <- _ _. destruct m as [s|]; [|congruence].
    split; simpl; [discriminate|]. intros _. split; [done|eexists; done].
Qed.

Lemma worker_good env fid uid (w w' : world) r :
  worker_messages_defined env ->
  executeFunction_worker env fid uid w = Returned r w' -> worker_shape env r.
Proof.
  intros Hd E. unfold executeFunction_worker in E.
  pose proof (wrun_good 6 env fid uid w WP_start Hd I) as G.
  destruct (wrun 6 env fid uid w WP_start) as [w2 []]; try discriminate.
  injection E as <- _. exact G.
Qed.

(** C6 (counterexample): in [auth.js] a successful run that wrote to
    [stderr] returns status ["success"] with a non-null error. *)
Lemma C6_success_with_stderr_counterexample :
  let r := (executeFunction_subprocess (example_penv "warn") "f" "u" "console.log(1)" JNull
              (example_world 0 0 0)).1.1 in
  res_status r = "success" /\ res_error r = Some "warn".
Proof. vm_compute. split; reflexivity. Qed.

(** C6 (amended): provided every exception the code catches carries a
    [message], a result of the Worker variant with status ["success"]
    has an output and no error, and one with status ["error"] has no
    output and has an error unless the Worker posted an error message
    without an [error] field (which the user's code can do). In the
    subprocess variant a result with status ["error"] has an error and no
    output, and one with status ["success"] has an output and no error
    unless the run wrote non-empty text to [stderr], kept as the error. *)
Theorem C6_result_shape :
  (forall (env : worker_env) (functionId userId : string) (w : world) (r : ExecResult) (w' : world),
     worker_messages_defined env ->
     executeFunction_worker env functionId userId w = Returned r w' ->
     worker_shape env r) /\
  (forall (env : proc_env) (functionId userId code : string) (inputData : json)
          (w : world) (r : ExecResult) (w' : world) (effs : list sp_effect),
     proc_messages_defined env ->
     executeFunction_subprocess env functionId userId code inputData w = (r, w', effs) ->
     subprocess_shape env r).
Proof. split; intros; [eapply worker_good | eapply subprocess_good]; eauto. Qed.

Lemma C6_result_shape_witness :
  worker_messages_defined (mk_worker_env None None None (WError None 3) EmptyString 5 None None) /\
  proc_messages_defined (example_penv "warn") /\
  match executeFunction_worker (mk_worker_env None None None (WError None 3) EmptyString 5 None None)
          "f" "u" (example_world 0 0 0) with
  | Returned r _ =>
      worker_shape (mk_worker_env None None None (WError None 3) EmptyString 5 None None) r /\
      res_status r = "error" /\ res_error r = None
  | Pending _ => False
  end /\
  subprocess_shape (example_penv "warn")
    (executeFunction_subprocess (example_penv "warn") "f" "u" "console.log(1)" JNull
       (example_world 0 0 0)).1.1.
Proof.
  assert (Hw : worker_messages_defined
                 (mk_worker_env None None None (WError None 3) EmptyString 5 None None)).
  { unfold worker_messages_defined, message_defined; simpl. repeat split; discriminate. }
  assert (Hp : proc_messages_defined (example_penv "warn")).
  { unfold proc_messages_defined, message_defined; simpl. repeat split; discriminate. }
  split; [exact Hw|]. split; [exact Hp|]. split.
  - destruct (executeFunction_worker (mk_worker_env None None None (WError None 3) EmptyString 5 None None)
                "f" "u" (example_world 0 0 0)) as [r w'|w'] eqn:E.
    + split; [exact (proj1 C6_result_shape _ _ _ _ _ _ Hw E)|].
      vm_compute in E. injection E as <- _. split; reflexivity.
    + vm_compute in E. discriminate.
  - destruct (executeFunction_subprocess (example_penv "warn") "f" "u" "console.log(1)" JNull
                (example_world 0 0 0)) as [[r w'] effs] eqn:E.
    exact (proj2 C6_result_shape _ _ _ _ _ _ _ _ _ Hp E).
Defined.

(* ================================================================== *)
(** ** The materialized program and its disposal *)

Lemma nonblank_count_app (s t : string) :
  nonblank_count (s +:+ t) = (nonblank_count s + nonblank_count t)%nat.
Proof. induction s as [|c s IH]; simpl; [done|]. rewrite IH. lia. Qed.

Lemma subprocess_try_writes env fid uid code input q (w : world) p text :
  In (E_writeTextFile p text) (subprocess_try env fid uid code input q w).2 ->
  p = pe_tempFile env /\ text = subprocess_wrappedCode input code.
Proof.
  unfold subprocess_try.
  destruct (pe_writeTextFile env); simpl; [done|].
  destruct (pe_run env); simpl; [intuition congruence|].
  destruct (pe_outcome env); simpl; [|intuition congruence].
  destruct (_ <? _); simpl; [intuition congruence|].
  destruct (pe_updateQuota2 env); simpl; [intuition congruence|].
  destruct (pe_logExecution env); simpl; intuition congruence.
Qed.

Lemma subprocess_effects env fid uid code input (w w' : world) r effs :
  executeFunction_subprocess env fid uid code input w = (r, w', effs) ->
  effs = [] \/
  exists mid, effs = [E_makeTempFile (pe_tempFile env)] ++ mid ++ [E_remove (pe_tempFile env)] /\
    forall p text, In (E_writeTextFile p text) mid ->
                   p = pe_tempFile env /\ text = subprocess_wrappedCode input code.
Proof.
  unfold executeFunction_subprocess.
  destruct (machine_check _); [intros E; injection E as _ _ <-; by left|].
  destruct (pe_getQuota env); [intros E; injection E as _ _ <-; by left|].
  destruct (quota_checks _) as [rq|q]; [intros E; injection E as _ _ <-; by left|].
  destruct (pe_updateQuota1 env); [intros E; injection E as _ _ <-; by left|].
  destruct (pe_makeTempFile env); [intros E; injection E as _ _ <-; by left|].
  pose proof (subprocess_try_writes env fid uid code input q) as Hw.
  destruct (subprocess_try _ _ _ _ _ _ _) as [[res w2] effs2] eqn:Et.
  intros E. right. exists effs2.
  destruct res; injection E as _ _ <-; (split; [done|]);
    intros p text Hin; eapply Hw; rewrite Et; exact Hin.
Qed.

Lemma subprocess_wrappedCode_shape (input : json) (code : string) :
  claimed_program_shape (subprocess_wrappedCode input code) input code.
Proof.
  exists nl, nl, (nl +:+ "      "). repeat split; reflexivity.
Qed.

Lemma worker_template :
  exists rest, forall input code,
    worker_wrappedCode input code =
    nl +:+ "      const input = " +:+ JSON_stringify input +:+ ";" +:+ nl
    +:+ "      " +:+ nl +:+ "      const handler = async (req) => {" +:+ nl
    +:+ "        " +:+ code +:+ rest.
Proof. eexists. intros input code. unfold worker_wrappedCode. cbv zeta. reflexivity. Qed.

(** C7 (counterexample): the program the Worker variant imports is not a
    declaration of [input] followed by the user's code: the code becomes
    the body of a request handler, followed by an HTTP harness. *)
Lemma C7_worker_program_counterexample :
  ~ claimed_program_shape (worker_wrappedCode JNull "return 1;") JNull "return 1;".
Proof.
  intros (ws1 & ws2 & ws3 & H1 & H2 & H3 & E).
  apply (f_equal nonblank_count) in E.
  rewrite !nonblank_count_app, H1, H2, H3 in E. vm_compute in E. discriminate.
Qed.

(** C7 (amended): in the subprocess variant the program written to the
    scratch file is exactly one declaration binding [input] to
    [JSON.stringify(inputData)], followed by the user's code verbatim,
    with only whitespace around them. Once the scratch file is created,
    its removal is the last effect on every exit path. In the Worker
    variant the code is placed verbatim as the body of an async request
    handler, after the same declaration, and followed by a harness that
    does not depend on the code or the input. *)
Theorem C7_program_and_disposal :
  (forall (env : proc_env) (functionId userId code : string) (inputData : json)
          (w : world) (r : ExecResult) (w' : world) (effs : list sp_effect),
     executeFunction_subprocess env functionId userId code inputData w = (r, w', effs) ->
     effs = [] \/
     exists mid,
       effs = [E_makeTempFile (pe_tempFile env)] ++ mid ++ [E_remove (pe_tempFile env)] /\
       forall p text, In (E_writeTextFile p text) mid ->
         p = pe_tempFile env /\ text = subprocess_wrappedCode inputData code /\
         claimed_program_shape text inputData code) /\
  (exists rest, forall input code,
     worker_wrappedCode input code =
     nl +:+ "      const input = " +:+ JSON_stringify input +:+ ";" +:+ nl
     +:+ "      " +:+ nl +:+ "      const handler = async (req) => {" +:+ nl
     +:+ "        " +:+ code +:+ rest).
Proof.
  split; [|exact worker_template].
  intros env functionId userId code inputData w r w' effs E.
  destruct (subprocess_effects _ _ _ _ _ _ _ _ _ E) as [->|(mid & -> & Hmid)]; [by left|].
  right. exists mid. split; [done|]. intros p text Hin.
  destruct (Hmid p text Hin) as [-> ->]. split; [done|]. split; [done|].
  apply subprocess_wrappedCode_shape.
Qed.

Lemma C7_program_and_disposal_witness :
  let effs := (executeFunction_subprocess (example_penv EmptyString) "f" "u" "return 1;" JNull
                 (example_world 0 0 0)).2 in
  effs <> [] /\ last effs = Some (E_remove "/tmp/x.js").
Proof.
  destruct (executeFunction_subprocess (example_penv EmptyString) "f" "u" "return 1;" JNull
              (example_world 0 0 0)) as [[r w'] effs] eqn:E.
  destruct (proj1 C7_program_and_disposal _ _ _ _ _ _ _ _ _ E) as [->|(mid & -> & _)].
  - vm_compute in E. congruence.
  - cbv zeta. cbn [snd]. split; [simpl; discriminate|].
    rewrite app_assoc. apply last_snoc.
Defined.

(* ================================================================== *)
(** ** The response of [GET /run/:id] *)

Lemma capture_response_cases (result : ExecResult) :
  match capture_response result with
  | HttpEnvelope st hs b =>
      exists out kvs m e,
        res_status result = "success" /\ res_output result = Some out /\ out <> EmptyString /\
        JSON_parse out = Some (JObj kvs) /\ obj_get kvs "status" = Some (JNum m e) /\
        st = JNum m e /\ b = envelope_body (obj_get kvs "body")
  | RawOutput _ r => r = sanitized result /\ ~ envelope_condition result
  end.
Proof.
  unfold capture_response, envelope_condition.
  destruct (res_output result) as [out|] eqn:Eo.
  2: { split; [done|]. intros (out & kvs & m & e & _ & Ho & _). congruence. }
  destruct (String.eqb (res_status result) "success" && negb (String.eqb out EmptyString)) eqn:Ec.
  2: { split; [done|]. intros (out' & kvs & m & e & Hs & Ho & Hne & _).
       try rewrite Eo in Ho. injection Ho as <-. try rewrite Hs in Ec.
       apply andb_false_iff in Ec as [Ec|Ec]; [discriminate|].
       apply negb_false_iff, String.eqb_eq in Ec. done. }
  apply andb_true_iff in Ec as [Es Ene].
  apply String.eqb_eq in Es. apply negb_true_iff, String.eqb_neq in Ene.
  destruct (JSON_parse out) as [[|b|m0 e0|s|l|kvs]|] eqn:Ep;
    try (split; [done|]; intros (out' & kvs' & m & e & _ & Ho & _ & Hp & _);
         try rewrite Eo in Ho; injection Ho as <-; congruence).
  destruct (obj_get kvs "status") as [[|b|m e|s|l|kvs0]|] eqn:Est;
    try (split; [done|]; intros (out' & kvs' & m' & e' & _ & Ho & _ & Hp & Hst & _);
         try rewrite Eo in Ho; injection Ho as <-; try rewrite Ep in Hp; injection Hp as <-;
         congruence).
  destruct (match obj_get kvs "headers" with
            | Some h => match header_entries h with Some es => set_headers es | None => Some [] end
            | None => Some [] end) as [hs|] eqn:Eh.
  - exists out, kvs, m, e. done.
  - split; [done|]. intros (out' & kvs' & m' & e' & _ & Ho & _ & Hp & _ & Hset).
    try rewrite Eo in Ho; injection Ho as <-; try rewrite Ep in Hp; injection Hp as <-.
    destruct (obj_get kvs "headers") as [h|] eqn:Eh'; [|discriminate].
    destruct (header_entries h) as [es|] eqn:Ee; [|discriminate].
    exact (Hset h es Eh' Ee Eh).
Qed.

(** C8 (counterexample): stdout [{"status":42,"headers":{},"body":"hi"}]
    is answered as an HTTP envelope with status 42, outside [100, 599]. *)
Lemma C8_status42_counterexample :
  capture_response (mk_result "success" (Some status42_stdout) None 5) =
  HttpEnvelope (JNum 42 0) [] (Some (JStr "hi")).
Proof. vm_compute. reflexivity. Qed.

(** C8 (amended): the handler answers with an HTTP envelope exactly when
    the result has status ["success"] and a non-empty output that
    [JSON.parse]s to an object whose ["status"] is a number (any number),
    and whose ["headers"], when present, can all be set. The envelope
    carries that status. Its body is the ["body"] field, parsed once more
    when it is a string and kept as the string when that parse fails.
    In every other case the answer is the raw-output body with the
    sanitized output. The stdout of the specification's example gives an
    envelope with status 200, the [Content-Type] header, and body
    [{x:1}]. *)
Theorem C8_capture_envelope :
  (forall result : ExecResult,
     match capture_response result with
     | HttpEnvelope st hs b =>
         exists out kvs m e,
           res_status result = "success" /\ res_output result = Some out /\
           out <> EmptyString /\ JSON_parse out = Some (JObj kvs) /\
           obj_get kvs "status" = Some (JNum m e) /\ headers_settable kvs /\
           st = JNum m e /\ b = envelope_body (obj_get kvs "body")
     | RawOutput _ r => r = sanitized result /\ ~ envelope_condition result
     end) /\
  capture_response (mk_result "success" (Some example_stdout) None 5) =
  HttpEnvelope (JNum 200 0) [("Content-Type", "application/json")]
    (Some (JObj [("x", JNum 1 0)])).
Proof.
  split; [|vm_compute; reflexivity].
  intros result. pose proof (capture_response_cases result) as H.
  destruct (capture_response result) as [st hs b|st r] eqn:E; [|exact H].
  destruct H as (out & kvs & m & e & Hs & Ho & Hne & Hp & Hst & -> & ->).
  exists out, kvs, m, e. do 5 (split; [done|]). split; [|done].
  intros h es Hh He Hset.
  unfold capture_response in E. rewrite Ho, Hs, Hp, Hst, Hh, He, Hset in E.
  rewrite (proj2 (String.eqb_neq out EmptyString) Hne) in E. discriminate.
Qed.

(* ================================================================== *)
(** ** [sanitizeOutput] *)

Lemma string_length_app (s t : string) :
  String.length (s +:+ t) = (String.length s + String.length t)%nat.
Proof. induction s as [|c s IH]; simpl; [done|]. by rewrite IH. Qed.

Lemma repeat_char_length (n : nat) (c : ascii) : String.length (repeat_char n c) = n.
Proof. induction n as [|n IH]; simpl; [done|]. by rewrite IH. Qed.

Lemma substring_prefix (n : nat) (s : string) :
  (n <= String.length s)%nat ->
  String.length (String.substring 0 n s) = n /\
  exists rest, s = String.substring 0 n s +:+ rest.
Proof.
  revert s. induction n as [|n IH]; intros s Hn.
  - destruct s; (split; [reflexivity|]); eexists; reflexivity.
  - destruct s as [|c s]; simpl in Hn; [lia|].
    destruct (IH s ltac:(lia)) as [Hl [rest Hr]].
    simpl. split; [by rewrite Hl|]. exists rest. rewrite Hr at 1. reflexivity.
Qed.

Lemma sanitizeOutput_long (s : string) :
  (OUTPUT_LIMIT < String.length s)%nat ->
  exists p rest,
    sanitizeOutput (Some s) = Some (p +:+ truncation_marker) /\
    String.length p = OUTPUT_LIMIT /\ s = p +:+ rest.
Proof.
  intros H. unfold sanitizeOutput.
  destruct (String.eqb s EmptyString) eqn:E.
  { apply String.eqb_eq in E. subst s. unfold OUTPUT_LIMIT in H. simpl in H. lia. }
  rewrite (proj2 (Nat.ltb_lt _ _) H).
  destruct (substring_prefix OUTPUT_LIMIT s ltac:(lia)) as [Hl [rest Hr]].
  exists (String.substring 0 OUTPUT_LIMIT s), rest. done.
Qed.

Lemma sanitizeOutput_short (s : string) :
  (String.length s <= OUTPUT_LIMIT)%nat -> sanitizeOutput (Some s) = Some s.
Proof.
  intros H. unfold sanitizeOutput.
  destruct (String.eqb s EmptyString); [done|].
  rewrite (proj2 (Nat.ltb_ge _ _) H). done.
Qed.

(** C9 (counterexample): an output of 1,000,001 characters, under 1 MiB,
    is not returned unchanged. *)
Lemma C9_counterexample :
  (String.length long_output <= Z.to_nat 1048576)%nat /\ sanitizeOutput (Some long_output) <> Some long_output.
Proof.
  assert (Hl : String.length long_output = S OUTPUT_LIMIT) by apply repeat_char_length.
  split; [rewrite Hl; unfold OUTPUT_LIMIT; lia|].
  destruct (sanitizeOutput_long long_output ltac:(lia)) as (p & rest & -> & Hp & _).
  intros E. injection E as E. apply (f_equal String.length) in E.
  rewrite string_length_app, Hp, Hl in E.
  assert (Hm : String.length truncation_marker = 23%nat) by reflexivity.
  rewrite Hm in E. lia.
Qed.

(** C9 (amended): an output longer than 1,000,000 characters is cut to
    its first 1,000,000 characters, followed by the marker
    ["\n... (output truncated)"]; any shorter output, and a missing one,
    is returned unchanged. The raw-output answer of [GET /run/:id]
    carries the output so sanitized. *)
Theorem C9_sanitize_output :
  (forall s : string, (OUTPUT_LIMIT < String.length s)%nat ->
     exists p rest,
       sanitizeOutput (Some s) = Some (p +:+ truncation_marker) /\
       String.length p = OUTPUT_LIMIT /\ s = p +:+ rest) /\
  (forall s : string, (String.length s <= OUTPUT_LIMIT)%nat -> sanitizeOutput (Some s) = Some s) /\
  sanitizeOutput None = None /\
  (forall (result : ExecResult) st r, capture_response result = RawOutput st r ->
     res_output r = sanitizeOutput (res_output result)).
Proof.
  split; [exact sanitizeOutput_long|]. split; [exact sanitizeOutput_short|].
  split; [reflexivity|].
  intros result st r E. pose proof (capture_response_cases result) as H.
  rewrite E in H. destruct H as [-> _]. reflexivity.
Qed.

Lemma C9_sanitize_output_witness :
  (String.length "abc" <= OUTPUT_LIMIT)%nat /\ sanitizeOutput (Some "abc") = Some "abc" /\
  (OUTPUT_LIMIT < String.length long_output)%nat /\
  exists p rest,
    sanitizeOutput (Some long_output) = Some (p +:+ truncation_marker) /\
    String.length p = OUTPUT_LIMIT /\ long_output = p +:+ rest.
Proof.
  assert (H1 : (String.length "abc" <= OUTPUT_LIMIT)%nat) by (unfold OUTPUT_LIMIT; simpl String.length; lia).
  assert (H2 : (OUTPUT_LIMIT < String.length long_output)%nat)
    by (unfold long_output; rewrite repeat_char_length; lia).
  split; [exact H1|]. split; [exact (proj1 (proj2 C9_sanitize_output) "abc" H1)|].
  split; [exact H2|]. exact (proj1 C9_sanitize_output long_output H2).
Defined.


(* ================================================================== *)
(** ** Properties of the validation helpers, the database layer and the
    routes *)

Lemma string_eqb_empty_length (s : string) :
  String.eqb s EmptyString = false -> (1 <= String.length s)%nat.
Proof. destruct s; simpl; [discriminate|lia]. Qed.

(** [validateFunctionName] accepts exactly a string of 1 to 64 characters, each a letter, a digit, [_] or [-]; it reports the length error exactly for strings longer than 64. *)
Theorem X_validateFunctionName_spec :
  (forall name : option json,
     validateFunctionName name = Valid <->
     exists s, name = Some (JStr s) /\ (1 <= String.length s <= 64)%nat /\
               forall c, In c (list_ascii_of_string s) -> name_char c = true) /\
  (forall s : string,
     validateFunctionName (Some (JStr s)) = Invalid name_length_msg <->
     (64 < String.length s)%nat).
Proof.
  split.
  - intros name. split.
    + destruct name as [[|b|m e|s|l|kvs]|]; simpl; try discriminate.
      destruct (String.eqb s EmptyString) eqn:E0; [discriminate|].
      pose proof (string_eqb_empty_length s E0).
      destruct ((String.length s <? 1)%nat || (64 <? String.length s)%nat) eqn:E1; [discriminate|].
      apply orb_false_iff in E1 as [_ E1]. apply Nat.ltb_ge in E1.
      unfold name_regex. rewrite E0. simpl.
      destruct (forallb name_char (list_ascii_of_string s)) eqn:E2; [|discriminate].
      intros _. exists s. split; [done|]. split; [lia|].
      by apply forallb_forall.
    + intros (s & -> & Hl & Hc). simpl.
      destruct (String.eqb s EmptyString) eqn:E0.
      { apply String.eqb_eq in E0. subst s. simpl in Hl. lia. }
      rewrite (proj2 (Nat.ltb_ge _ _) (proj1 Hl)), (proj2 (Nat.ltb_ge _ _) (proj2 Hl)). simpl.
      unfold name_regex. rewrite E0. simpl. by rewrite (proj2 (forallb_forall _ _) Hc).
  - intros s. simpl. split.
    + destruct (String.eqb s EmptyString) eqn:E0; [discriminate|].
      pose proof (string_eqb_empty_length s E0).
      destruct ((String.length s <? 1)%nat || (64 <? String.length s)%nat) eqn:E1.
      * intros _. apply orb_true_iff in E1 as [E1|E1]; apply Nat.ltb_lt in E1; lia.
      * destruct (name_regex s); discriminate.
    + intros H. destruct (String.eqb s EmptyString) eqn:E0.
      { apply String.eqb_eq in E0. subst s. simpl in H. lia. }
      rewrite (proj2 (Nat.ltb_lt _ _) H), orb_true_r. done.
Qed.

Lemma lower_char_eq (c : ascii) : lower_char (lower_char c) = lower_char c.
Proof. destruct c as [[] [] [] [] [] [] [] []]; reflexivity. Qed.

Lemma toLowerCase_idem (s : string) : toLowerCase (toLowerCase s) = toLowerCase s.
Proof.
  unfold toLowerCase. rewrite list_ascii_of_string_of_list_ascii, map_map.
  f_equal. apply map_ext. apply lower_char_eq.
Qed.

(** [maskSensitiveData] keeps the keys in order, replaces the value of every key whose lower-cased form contains [code], [password], [key] or [secret] by ["[REDACTED]"] and keeps the others; masking twice is masking once, and the test ignores case. *)
Theorem X_maskSensitiveData_spec :
  forall obj : list (string * json),
    map fst (maskSensitiveData obj) = map fst obj /\
    (forall k v, In (k, v) obj ->
       In (k, if sensitive_key k then redacted else v) (maskSensitiveData obj)) /\
    maskSensitiveData (maskSensitiveData obj) = maskSensitiveData obj /\
    (forall k, sensitive_key (toLowerCase k) = sensitive_key k).
Proof.
  intros obj. split; [|split; [|split]].
  - unfold maskSensitiveData. rewrite map_map. apply map_ext. intros [k v]. simpl.
    by destruct (sensitive_key k).
  - intros k v Hin. unfold maskSensitiveData. apply in_map_iff.
    exists (k, v). split; [simpl; by destruct (sensitive_key k)|done].
  - unfold maskSensitiveData. rewrite map_map. apply map_ext. intros [k v]. simpl.
    destruct (sensitive_key k) eqn:E; simpl; rewrite ?E; done.
  - intros k. unfold sensitive_key. by rewrite toLowerCase_idem.
Qed.

Lemma match_classes_nth (p : list (ascii -> bool)) (l : list ascii) :
  match_classes p l = true <->
  length l = length p /\
  forall i c, nth_error l i = Some c -> exists cls, nth_error p i = Some cls /\ cls c = true.
Proof.
  revert l. induction p as [|cls p IH]; intros [|c l]; simpl.
  - split; [intros _; split; [done|]; intros [] ? ?; discriminate|done].
  - split; [discriminate|intros [? _]; discriminate].
  - split; [discriminate|intros [? _]; discriminate].
  - rewrite andb_true_iff, IH. split.
    + intros (Hc & Hl & Hi). split; [by rewrite Hl|].
      intros [|i] c' E; simpl in E.
      * injection E as <-. by exists cls.
      * by apply Hi.
    + intros (Hl & Hi). destruct (Hi 0%nat c eq_refl) as (cls' & E & Hc).
      injection E as <-. split; [done|]. split; [lia|].
      intros i c' E. exact (Hi (S i) c' E).
Qed.

Lemma string_get_nth (s : string) (i : nat) :
  String.get i s = nth_error (list_ascii_of_string s) i.
Proof. revert i. induction s as [|c s IH]; intros [|i]; simpl; auto. Qed.

Lemma length_list_ascii (s : string) : length (list_ascii_of_string s) = String.length s.
Proof. induction s; simpl; auto. Qed.


Lemma uuid_pattern_nth (i : nat) :
  (i < 36)%nat ->
  nth_error uuid_pattern i = Some (if uuid_dash_pos i then dash else hex_ci).
Proof. intros H. do 36 (destruct i as [|i]; [reflexivity|]). lia. Qed.

Lemma dash_iff (c : ascii) : dash c = true <-> c = "-"%char.
Proof.
  unfold dash, ch_is. rewrite Nat.eqb_eq. split.
  - intros H. rewrite <- (ascii_nat_embedding c), H. reflexivity.
  - intros ->. reflexivity.
Qed.

(** [validateUUID] accepts exactly the 36-character strings with [-] at positions 8, 13, 18 and 23 and a hexadecimal digit of either case everywhere else. *)
Theorem X_validateUUID_spec :
  forall id : string,
    validateUUID id = true <->
    String.length id = 36%nat /\
    forall i c, String.get i id = Some c ->
      if uuid_dash_pos i then c = "-"%char else hex_ci c = true.
Proof.
  intros id. unfold validateUUID. rewrite match_classes_nth, length_list_ascii.
  assert (Hp : length uuid_pattern = 36%nat) by reflexivity. rewrite Hp.
  split.
  - intros [Hl Hi]. split; [done|]. intros i c E. rewrite string_get_nth in E.
    destruct (Hi i c E) as (cls & Ec & Hc).
    assert (Hi36 : (i < 36)%nat).
    { rewrite <- Hp. apply nth_error_Some. congruence. }
    rewrite uuid_pattern_nth in Ec by done. injection Ec as <-.
    destruct (uuid_dash_pos i); [by apply dash_iff|done].
  - intros [Hl Hi]. split; [done|]. intros i c E.
    assert (Hi36 : (i < 36)%nat).
    { rewrite <- Hl, <- length_list_ascii. apply nth_error_Some. congruence. }
    rewrite uuid_pattern_nth by done. eexists; split; [reflexivity|].
    specialize (Hi i c). rewrite string_get_nth in Hi. specialize (Hi E).
    destruct (uuid_dash_pos i); [by apply dash_iff|done].
Qed.

Lemma hex_ci_lower (c : ascii) : hex_ci (lower_char c) = hex_ci c.
Proof. destruct c as [[] [] [] [] [] [] [] []]; reflexivity. Qed.

Lemma dash_lower (c : ascii) : dash (lower_char c) = dash c.
Proof. destruct c as [[] [] [] [] [] [] [] []]; reflexivity. Qed.

Lemma match_classes_lower (p : list (ascii -> bool)) (l : list ascii) :
  (forall cls, In cls p -> forall c, cls (lower_char c) = cls c) ->
  match_classes p (map lower_char l) = match_classes p l.
Proof.
  revert l. induction p as [|cls p IH]; intros [|c l] Hp; simpl; try done.
  rewrite (Hp cls (or_introl eq_refl)), IH; [done|].
  intros cls' H. apply Hp. by right.
Qed.

(** [validateUUID] gives the same answer on an identifier and on its lower-cased form. *)
Theorem X_validateUUID_case_insensitive :
  forall id : string, validateUUID (toLowerCase id) = validateUUID id.
Proof.
  intros id. unfold validateUUID, toLowerCase.
  rewrite list_ascii_of_string_of_list_ascii. apply match_classes_lower.
  intros cls Hin c. unfold uuid_pattern in Hin. simpl in Hin.
  repeat (destruct Hin as [<-|Hin]; [auto using hex_ci_lower, dash_lower|]).
  destruct Hin.
Qed.

(** [corsMiddleware] answers an [OPTIONS] request itself with status 204 and does not call [next]; any other method goes on to [next] with no status set. The headers always allow credentials and echo the request origin, or [*] when there is none. *)
Theorem X_corsMiddleware_spec :
  forall (origin : option string) (method : string),
    (cors_calls_next (corsMiddleware origin method) = false <-> method = "OPTIONS") /\
    (cors_status (corsMiddleware origin method) = Some 204 <-> method = "OPTIONS") /\
    In ("Access-Control-Allow-Credentials", "true") (cors_headers (corsMiddleware origin method)) /\
    In ("Access-Control-Allow-Origin",
        match origin with
        | Some o => if String.eqb o EmptyString then "*" else o
        | None => "*"
        end) (cors_headers (corsMiddleware origin method)).
Proof.
  intros origin method. unfold corsMiddleware.
  destruct (String.eqb method "OPTIONS") eqn:E.
  - apply String.eqb_eq in E. simpl. repeat split; auto; by right; right; right; left.
  - apply String.eqb_neq in E. simpl. repeat split; try discriminate; try (intros; contradiction);
      auto; by right; right; right; left.
Qed.

Lemma substring_all (t : string) : String.substring 0 (String.length t) t = t.
Proof. induction t as [|c t IH]; simpl; [done|]. by rewrite IH. Qed.

Lemma prefix_app (p t : string) : String.prefix p (p +:+ t) = true.
Proof.
  induction p as [|c p IH]; simpl; [by destruct t|].
  destruct (ascii_dec c c); [done|contradiction].
Qed.

Lemma prefix_split (p h : string) :
  String.prefix p h = true -> exists t, h = p +:+ t.
Proof.
  revert h. induction p as [|c p IH]; intros h H; [by exists h|].
  destruct h as [|c' h]; simpl in H; [discriminate|].
  destruct (ascii_dec c c') as [<-|]; [|discriminate].
  destruct (IH h H) as [t ->]. by exists t.
Qed.

Lemma getAuthUser_bearer {U : Type} (verifyToken : string -> option U) (t : string) :
  getAuthUser (Some ("Bearer " +:+ t)) verifyToken = verifyToken t.
Proof.
  unfold getAuthUser. simpl.
  change (EmptyString +:+ t) with t. rewrite Nat.sub_0_r, substring_all.
  destruct t; reflexivity.
Qed.

(** [getAuthUser] hands [verifyToken] the text after ["Bearer "]; a missing header or one with another prefix yields no user. [requireAuth] admits a request exactly when its header is ["Bearer " ++ t] for a token [t] that [verifyToken] accepts. *)
Theorem X_requireAuth_bearer :
  forall (U : Type) (verifyToken : string -> option U),
    (forall t, getAuthUser (Some ("Bearer " +:+ t)) verifyToken = verifyToken t) /\
    (forall h, String.prefix "Bearer " h = false -> getAuthUser (Some h) verifyToken = None) /\
    getAuthUser None verifyToken = None /\
    (forall authorization u,
       requireAuth authorization verifyToken = Authorized u <->
       exists t, authorization = Some ("Bearer " +:+ t) /\ verifyToken t = Some u).
Proof.
  intros U vt. split; [apply getAuthUser_bearer|]. split.
  { intros h H. unfold getAuthUser. rewrite H. by destruct (String.eqb h EmptyString). }
  split; [done|].
  intros authorization u. unfold requireAuth. split.
  - destruct (getAuthUser authorization vt) as [u'|] eqn:E; [|discriminate].
    intros Hu. injection Hu as <-.
    destruct authorization as [h|]; [|discriminate].
    pose proof E as E'. unfold getAuthUser in E'.
    destruct (String.eqb h EmptyString); [discriminate|].
    destruct (String.prefix "Bearer " h) eqn:Ep; [|discriminate].
    destruct (prefix_split _ _ Ep) as [t ->]. exists t. split; [done|].
    by rewrite getAuthUser_bearer in E.
  - intros (t & -> & Ht). by rewrite getAuthUser_bearer, Ht.
Qed.

Lemma find_app {A} (P : A -> bool) (l1 l2 : list A) :
  find P (l1 ++ l2) = match find P l1 with Some x => Some x | None => find P l2 end.
Proof. induction l1 as [|x l1 IH]; simpl; [done|]. by destruct (P x). Qed.

Lemma find_none_forall {A} (P : A -> bool) (l : list A) :
  find P l = None -> forall x, In x l -> P x = false.
Proof.
  induction l as [|y l IH]; simpl; [done|].
  destruct (P y) eqn:E; [discriminate|]. intros H x [<-|Hx]; auto.
Qed.

Lemma find_some_in {A} (P : A -> bool) (l : list A) x :
  find P l = Some x -> In x l /\ P x = true.
Proof.
  induction l as [|y l IH]; simpl; [discriminate|].
  destruct (P y) eqn:E; [intros H; injection H as <-; auto|].
  intros H. destruct (IH H). auto.
Qed.

(** Updating in place the rows a predicate selects. *)
Lemma find_map_update {A} (P : A -> bool) (f : A -> A) (l : list A) :
  (forall x, P x = true -> P (f x) = true) ->
  find P (map (fun x => if P x then f x else x) l) = option_map f (find P l).
Proof.
  intros Hf. induction l as [|x l IH]; simpl; [done|].
  destruct (P x) eqn:E; simpl; [by rewrite Hf|by rewrite E].
Qed.

Lemma filter_map_update {A} (P : A -> bool) (f : A -> A) (l : list A) :
  (forall x, P x = true -> P (f x) = true) ->
  List.filter (fun x => negb (P x)) (map (fun x => if P x then f x else x) l) =
  List.filter (fun x => negb (P x)) l.
Proof.
  intros Hf. induction l as [|x l IH]; simpl; [done|].
  destruct (P x) eqn:E; simpl; [by rewrite Hf|by rewrite E, IH].
Qed.

Lemma map_update_same {A B} (P : A -> bool) (f : A -> A) (g : A -> B) (l : list A) :
  (forall x, P x = true -> g (f x) = g x) ->
  map g (map (fun x => if P x then f x else x) l) = map g l.
Proof.
  intros Hg. induction l as [|x l IH]; simpl; [done|].
  destruct (P x) eqn:E; rewrite IH; [by rewrite Hg|done].
Qed.

Lemma find_map_other {A} (P Q : A -> bool) (f : A -> A) (l : list A) :
  (forall x, P x = true -> Q x = false /\ Q (f x) = false) ->
  find Q (map (fun x => if P x then f x else x) l) = find Q l.
Proof.
  intros H. induction l as [|x l IH]; simpl; [done|].
  destruct (P x) eqn:E.
  - destruct (H x E) as [H1 H2]. by rewrite H1, H2.
  - by rewrite IH.
Qed.

Lemma NoDup_map_snoc {A B} (g : A -> B) (l : list A) (x : A) :
  NoDup (map g l) -> (forall y, In y l -> g y <> g x) -> NoDup (map g (l ++ [x])).
Proof.
  intros Hn Hx. rewrite map_app. apply NoDup_app. split; [done|]. split.
  - intros b Hb Hb'. apply list_elem_of_In in Hb. apply list_elem_of_In in Hb'.
    simpl in Hb'. destruct Hb' as [<-|[]]. apply in_map_iff in Hb as (y & Hy & Hin).
    exact (Hx y Hin Hy).
  - simpl. constructor; [set_solver|constructor].
Qed.

(** On a table with unique [appwrite_user_id]s, [createOrUpdateUser] keeps them unique and returns the row now stored for the Appwrite id, with the new email. An existing user keeps its id and creation time, a new one gets the fresh id, and other Appwrite ids look up as before. *)
Theorem X_createOrUpdateUser_spec :
  forall (us : list user_row) (userId appwriteUserId newEmail : string) (now : Z),
    NoDup (map appwrite_user_id us) ->
    let '(u, us') := createOrUpdateUser us userId appwriteUserId newEmail now in
    NoDup (map appwrite_user_id us') /\
    getUser us' appwriteUserId = Some u /\
    u.(email) = newEmail /\
    (forall u0, getUser us appwriteUserId = Some u0 ->
       u.(u_id) = u0.(u_id) /\ u.(u_created_at) = u0.(u_created_at)) /\
    (getUser us appwriteUserId = None -> u.(u_id) = userId) /\
    (forall a, a <> appwriteUserId -> getUser us' a = getUser us a).
Proof.
  intros us userId aid em now Hnd. unfold createOrUpdateUser.
  destruct (getUser us aid) as [u0|] eqn:Eg.
  - destruct (find_some_in _ _ _ Eg) as [Hin Ha]. apply String.eqb_eq in Ha.
    set (u' := mk_user (u_id u0) (appwrite_user_id u0) em (u_created_at u0) now).
    assert (Hu' : String.eqb (appwrite_user_id u') aid = true) by (apply String.eqb_eq; done).
    split.
    { rewrite (map_update_same (fun x => String.eqb (appwrite_user_id x) aid) (fun _ => u')); [done|].
      intros x Hx. apply String.eqb_eq in Hx. simpl. congruence. }
    split.
    { unfold getUser.
      rewrite (find_map_update (fun x => String.eqb (appwrite_user_id x) aid) (fun _ => u')).
      - unfold getUser in Eg. by rewrite Eg.
      - intros x _. exact Hu'. }
    split; [done|]. split.
    { intros u1 E. injection E as <-. done. }
    split; [discriminate|].
    intros a Ha'. unfold getUser.
    apply find_map_other. intros x Hx. apply String.eqb_eq in Hx.
    split; apply String.eqb_neq; simpl; congruence.
  - split.
    { apply NoDup_map_snoc; [done|]. intros y Hy. simpl.
      pose proof (find_none_forall _ _ Eg y Hy) as Hf. simpl in Hf.
      by apply String.eqb_neq. }
    split.
    { unfold getUser. rewrite find_app. unfold getUser in Eg. rewrite Eg. simpl.
      by rewrite String.eqb_refl. }
    split; [done|]. split; [discriminate|]. split; [done|].
    intros a Ha. unfold getUser. rewrite find_app. simpl.
    destruct (find _ us); [done|].
    rewrite (proj2 (String.eqb_neq aid a)); [done|congruence].
Qed.

(** [validateCode] accepts exactly a non-empty string of at most 1000000 characters. *)
Theorem X_validateCode_spec :
  forall code : option json,
    validateCode code = Valid <->
    exists s, code = Some (JStr s) /\ s <> EmptyString /\ (String.length s <= CODE_LIMIT)%nat.
Proof.
  intros code. unfold validateCode. split.
  - destruct code as [[|b|m e|s|l|kvs]|]; try discriminate.
    destruct (String.eqb s EmptyString) eqn:E1; [discriminate|].
    destruct (CODE_LIMIT <? String.length s)%nat eqn:E2; [discriminate|].
    intros _. exists s. split; [done|]. split.
    + by apply String.eqb_neq.
    + apply Nat.ltb_ge in E2. lia.
  - intros (s & -> & Hs & Hl).
    rewrite (proj2 (String.eqb_neq s EmptyString) Hs).
    by rewrite (proj2 (Nat.ltb_ge _ _) Hl).
Qed.

Lemma existsb_false_forall {A} (P : A -> bool) (l : list A) :
  existsb P l = false -> forall x, In x l -> P x = false.
Proof. intros H x Hx. destruct (P x) eqn:E; [|done]. rewrite (proj2 (existsb_exists P l) (ex_intro _ x (conj Hx E))) in H. done. Qed.

Lemma find_none_intro {A} (P : A -> bool) (l : list A) :
  (forall x, In x l -> P x = false) -> find P l = None.
Proof. induction l as [|y l IH]; simpl; [done|]. intros H. rewrite H; auto. Qed.

(** [createFunction] either appends the row [{id, user_id, name, code, enabled: true}] stamped [now], which [getFunction] and [getFunctionById] then find and which keeps ids and (user, name) pairs unique, or fails: with a unique violation when the id or the (user, name) pair is taken, with a foreign-key violation when the user does not exist. *)
Theorem X_createFunction_spec :
  forall (us : list user_row) (fs : list function_row) (functionId userId name code : string) (now : Z),
    match createFunction us fs functionId userId name code now with
    | inr (f, fs') =>
        f = mk_function functionId userId name code true now now /\
        fs' = fs ++ [f] /\
        getFunction fs' functionId userId = Some f /\
        getFunctionById fs' functionId = Some f /\
        (exists u, In u us /\ u.(u_id) = userId) /\
        (NoDup (map f_id fs) -> NoDup (map f_id fs')) /\
        (NoDup (map (fun g => (g.(f_user_id), g.(f_name))) fs) ->
         NoDup (map (fun g => (g.(f_user_id), g.(f_name))) fs'))
    | inl UniqueViolation =>
        exists g, In g fs /\ (g.(f_id) = functionId \/ g.(f_user_id) = userId /\ g.(f_name) = name)
    | inl ForeignKeyViolation =>
        forall u, In u us -> u.(u_id) <> userId
    end.
Proof.
  intros us fs fid uid name code now. unfold createFunction.
  destruct (existsb (fun f => String.eqb f.(f_id) fid) fs) eqn:E1.
  { apply existsb_exists in E1 as (g & Hg & Eg). apply String.eqb_eq in Eg. eauto. }
  destruct (existsb (fun f => String.eqb f.(f_user_id) uid && String.eqb f.(f_name) name) fs) eqn:E2.
  { apply existsb_exists in E2 as (g & Hg & Eg). apply andb_true_iff in Eg as [Ea Eb].
    apply String.eqb_eq in Ea. apply String.eqb_eq in Eb. eauto. }
  destruct (existsb (fun u => String.eqb u.(u_id) uid) us) eqn:E3; simpl.
  2: { intros u Hu. pose proof (existsb_false_forall _ _ E3 u Hu) as H. simpl in H.
       by apply String.eqb_neq. }
  pose proof (existsb_false_forall _ _ E1) as H1. pose proof (existsb_false_forall _ _ E2) as H2.
  simpl in H1, H2.
  assert (Hf : forall g, In g fs -> owned fid uid g = false).
  { intros g Hg. unfold owned. by rewrite H1. }
  split; [done|]. split; [done|]. split.
  { unfold getFunction. rewrite find_app.
    rewrite find_none_intro; [|exact Hf].
    simpl. unfold owned. simpl. by rewrite !String.eqb_refl. }
  split.
  { unfold getFunctionById. rewrite find_app.
    rewrite find_none_intro; [|exact H1].
    simpl. by rewrite !String.eqb_refl. }
  split.
  { apply existsb_exists in E3 as (u & Hu & Eu). apply String.eqb_eq in Eu. eauto. }
  split.
  - intros Hn. apply NoDup_map_snoc; [done|]. intros y Hy. simpl.
    apply String.eqb_neq. exact (H1 y Hy).
  - intros Hn. apply NoDup_map_snoc; [done|]. intros y Hy. simpl.
    intros Heq. injection Heq as Ha Hb. specialize (H2 y Hy).
    rewrite Ha, Hb, !String.eqb_refl in H2. discriminate.
Qed.

Lemma map_update_none {A} (P : A -> bool) (f : A -> A) (l : list A) :
  find P l = None -> map (fun x => if P x then f x else x) l = l.
Proof.
  intros H. pose proof (find_none_forall P l H) as H'. clear H.
  induction l as [|x l IH]; simpl; [done|].
  rewrite H' by (left; done). f_equal. apply IH. intros y Hy. apply H'. by right.
Qed.

Lemma owned_true (fid uid : string) (f : function_row) :
  owned fid uid f = true -> f.(f_id) = fid /\ f.(f_user_id) = uid.
Proof. unfold owned. rewrite andb_true_iff, !String.eqb_eq. done. Qed.

(** [updateFunctionCode] returns the caller's function with the new code and [updated_at = now] (nothing when the caller owns no function with that id), stores exactly that, keeps every other row and the list of ids, and changes nothing when there is no such function. *)
Theorem X_updateFunctionCode_spec :
  forall (fs : list function_row) (functionId userId code : string) (now : Z),
    let '(r, fs') := updateFunctionCode fs functionId userId code now in
    r = option_map (fun f => mk_function f.(f_id) f.(f_user_id) f.(f_name) code f.(f_enabled)
                               f.(f_created_at) now)
          (getFunction fs functionId userId) /\
    getFunction fs' functionId userId = r /\
    map f_id fs' = map f_id fs /\
    List.filter (fun f => negb (owned functionId userId f)) fs' =
    List.filter (fun f => negb (owned functionId userId f)) fs /\
    (getFunction fs functionId userId = None -> fs' = fs).
Proof.
  intros fs fid uid code now. unfold updateFunctionCode, getFunction.
  split; [|split; [done|split; [|split]]].
  - apply find_map_update. intros x Hx. unfold owned in *. done.
  - apply map_update_same. done.
  - apply filter_map_update. intros x Hx. unfold owned in *. done.
  - apply map_update_none.
Qed.

(** For a request body that is an object whose [enabled] is a boolean,
    [PUT /functions/:id/status] answers 200 with the caller's function
    carrying that flag and [updated_at = now] (or with nothing), stores
    it, leaves the other rows and the other tables unchanged, and leaves
    the database unchanged when the caller owns no function with that id. *)
Theorem X_status_route_spec :
  forall (d : db) (user : user_row) (id : string) (enabled : bool) (now : Z),
    let '(r, d') := status_route d user id enabled now in
    let updated := option_map (fun f => mk_function f.(f_id) f.(f_user_id) f.(f_name) f.(f_code)
                                          enabled f.(f_created_at) now)
                     (getFunction d.(db_functions) id user.(u_id)) in
    r = mk_response 200 (BFunction updated) /\
    getFunction d'.(db_functions) id user.(u_id) = updated /\
    d'.(db_users) = d.(db_users) /\ d'.(db_quotas) = d.(db_quotas) /\
    d'.(db_executions) = d.(db_executions) /\
    List.filter (fun f => negb (owned id user.(u_id) f)) d'.(db_functions) =
    List.filter (fun f => negb (owned id user.(u_id) f)) d.(db_functions) /\
    (getFunction d.(db_functions) id user.(u_id) = None -> d' = d).
Proof.
  intros [us fs qs xs] user id en now. unfold status_route, updateFunctionStatus, set_functions.
  cbn [db_functions db_users db_quotas db_executions]. unfold getFunction.
  split; [by rewrite find_map_update by (intros x Hx; unfold owned in *; done)|]. split.
  { rewrite find_map_update by (intros x Hx; unfold owned in *; done). done. }
  split; [done|]. split; [done|]. split; [done|]. split.
  - apply filter_map_update. intros x Hx. unfold owned in *. done.
  - intros H. by rewrite map_update_none.
Qed.

(** [deleteFunction] returns [true], removes exactly the caller's function with that id (another user's function with the same id stays) and, through the cascade, exactly the executions of a removed function. *)
Theorem X_deleteFunction_spec :
  forall (fs : list function_row) (xs : list execution_row) (functionId userId : string),
    let '(fs', xs', ok) := deleteFunction fs xs functionId userId in
    ok = true /\
    getFunction fs' functionId userId = None /\
    (forall f, In f fs' <-> In f fs /\ owned functionId userId f = false) /\
    (forall x, In x xs' <->
       In x xs /\ (getFunction fs functionId userId = None \/ x.(x_function_id) <> functionId)).
Proof.
  intros fs xs fid uid. unfold deleteFunction.
  split; [done|]. split.
  { unfold getFunction. apply find_none_intro. intros f Hf.
    apply filter_In in Hf as [_ Hf]. by apply negb_true_iff in Hf. }
  split.
  { intros f. rewrite filter_In, negb_true_iff. done. }
  intros x. rewrite filter_In, negb_true_iff. split.
  - intros [Hx He]. split; [done|].
    destruct (getFunction fs fid uid) as [g|] eqn:Eg; [right|by left].
    intros Hxf. apply find_some_in in Eg as [Hg Og].
    assert (Hex : existsb (fun f => String.eqb (x_function_id x) (f_id f))
                    (List.filter (owned fid uid) fs) = true).
    { apply existsb_exists. exists g. split.
      - by apply filter_In.
      - apply owned_true in Og as [Og _]. apply String.eqb_eq. congruence. }
    congruence.
  - intros [Hx Hc]. split; [done|].
    apply not_true_iff_false. intros Hex.
    apply existsb_exists in Hex as (g & Hg & Eg).
    apply filter_In in Hg as [Hg Og]. apply String.eqb_eq in Eg.
    destruct (owned_true _ _ _ Og) as [Ha Hb]. destruct Hc as [Hc|Hc].
    + pose proof (find_none_forall _ _ Hc g Hg). congruence.
    + congruence.
Qed.

Lemma filter_filter_same {A} (p : A -> bool) (l : list A) :
  List.filter p (List.filter p l) = List.filter p l.
Proof.
  induction l as [|x l IH]; simpl; [done|].
  destruct (p x) eqn:E; simpl; [rewrite E|]; by rewrite IH.
Qed.

Lemma filter_true {A} (p : A -> bool) (l : list A) :
  (forall x, p x = true) -> List.filter p l = l.
Proof. intros H. induction l as [|x l IH]; simpl; [done|]. by rewrite H, IH. Qed.

(** [DELETE /functions/:id] always answers 204, leaves the users and quotas alone, and a second identical request answers the same and changes nothing. *)
Theorem X_delete_route_idempotent :
  forall (d : db) (user : user_row) (id : string),
    let '(r, d1) := delete_route d user id in
    r = mk_response 204 BEmpty /\
    d1.(db_users) = d.(db_users) /\ d1.(db_quotas) = d.(db_quotas) /\
    delete_route d1 user id = (r, d1).
Proof.
  intros [us fs qs xs] user id. unfold delete_route, deleteFunction. simpl.
  split; [done|]. split; [done|]. split; [done|].
  rewrite filter_filter_same.
  assert (Hg : List.filter (owned id (u_id user))
                 (List.filter (fun f => negb (owned id (u_id user) f)) fs) = []).
  { induction fs as [|f fs IH]; simpl; [done|].
    destruct (owned id (u_id user) f) eqn:E; simpl; [done|]. by rewrite E. }
  rewrite Hg. simpl. by rewrite (filter_true (fun _ : execution_row => true)).
Qed.

(** [initializeQuota] leaves an existing quota row as it is and otherwise creates [{id: quotaId, cpu 0, concurrent 0, last_reset_at now}], which the admission checks accept; other users' rows are untouched and a second call changes nothing. *)
Theorem X_initializeQuota_spec :
  forall (qs : gmap string quota_row) (userId quotaId : string) (now : Z),
    let qs' := initializeQuota qs userId quotaId now in
    qs' !! userId = Some (match qs !! userId with Some r => r | None => mk_quota quotaId 0 0 now end) /\
    (forall k, k <> userId -> qs' !! k = qs !! k) /\
    (forall quotaId' now', initializeQuota qs' userId quotaId' now' = qs') /\
    (qs !! userId = None -> quota_checks (getQuota qs' userId) = Admit (mk_quota quotaId 0 0 now)).
Proof.
  intros qs uid qid now. unfold initializeQuota.
  destruct (qs !! uid) as [r|] eqn:E.
  - split; [done|]. split; [done|]. split; [|discriminate].
    intros qid' now'. by rewrite E.
  - split; [by rewrite lookup_insert_eq|]. split.
    { intros k Hk. by rewrite lookup_insert_ne by congruence. }
    split.
    + intros qid' now'. by rewrite lookup_insert_eq.
    + intros _. unfold getQuota. rewrite lookup_insert_eq. reflexivity.
Qed.

Lemma resetDailyQuotas_lookup (qs : gmap string quota_row) (now : Z) (k : string) :
  resetDailyQuotas qs now !! k =
  (fun r => if r.(last_reset_at) <? now - DAY_MS
            then mk_quota r.(q_id) 0 r.(concurrent_count) now else r) <$> qs !! k.
Proof. unfold resetDailyQuotas. by rewrite lookup_fmap. Qed.

(** [resetDailyQuotas] zeroes the CPU time and sets [last_reset_at = now] on exactly the rows last reset more than 24 hours ago, keeps the set of users, ids and concurrency counters, leaves no row older than 24 hours, and a second reset at the same time changes nothing. *)
Theorem X_resetDailyQuotas_spec :
  forall (qs : gmap string quota_row) (now : Z),
    (forall k r, qs !! k = Some r -> r.(last_reset_at) < now - DAY_MS ->
       resetDailyQuotas qs now !! k = Some (mk_quota r.(q_id) 0 r.(concurrent_count) now)) /\
    (forall k r, qs !! k = Some r -> now - DAY_MS <= r.(last_reset_at) ->
       resetDailyQuotas qs now !! k = Some r) /\
    (forall k, resetDailyQuotas qs now !! k = None <-> qs !! k = None) /\
    (forall k r', resetDailyQuotas qs now !! k = Some r' ->
       now - DAY_MS <= r'.(last_reset_at) /\
       exists r, qs !! k = Some r /\ r'.(q_id) = r.(q_id) /\
                 r'.(concurrent_count) = r.(concurrent_count)) /\
    resetDailyQuotas (resetDailyQuotas qs now) now = resetDailyQuotas qs now.
Proof.
  intros qs now. split; [|split; [|split; [|split]]].
  - intros k r Hk Hl. rewrite resetDailyQuotas_lookup, Hk. simpl.
    by rewrite (proj2 (Z.ltb_lt _ _) Hl).
  - intros k r Hk Hl. rewrite resetDailyQuotas_lookup, Hk. simpl.
    by rewrite (proj2 (Z.ltb_ge _ _) Hl).
  - intros k. rewrite resetDailyQuotas_lookup. destruct (qs !! k); simpl; split; done.
  - intros k r'. rewrite resetDailyQuotas_lookup. destruct (qs !! k) as [r|] eqn:E; [|discriminate].
    simpl. intros H. injection H as <-.
    destruct (last_reset_at r <? now - DAY_MS) eqn:El; simpl.
    + split; [unfold DAY_MS; lia|]. eauto.
    + apply Z.ltb_ge in El. split; [done|]. eauto.
  - unfold resetDailyQuotas. rewrite <- map_fmap_compose. apply map_fmap_ext.
    intros i r _. simpl.
    destruct (last_reset_at r <? now - DAY_MS) eqn:El; simpl.
    + rewrite (proj2 (Z.ltb_ge now (now - DAY_MS))); [done|unfold DAY_MS; lia].
    + by rewrite El.
Qed.

(** After [resetDailyQuotas], a user whose row was more than 24 hours old and who has fewer than 10 executions running passes the admission checks with CPU time 0. *)
Theorem X_reset_then_admit :
  forall (qs : gmap string quota_row) (now : Z) (userId : string) (r : quota_row),
    qs !! userId = Some r ->
    r.(last_reset_at) < now - DAY_MS ->
    r.(concurrent_count) < MAX_CONCURRENT_EXECUTIONS ->
    quota_checks (getQuota (resetDailyQuotas qs now) userId) =
    Admit (mk_quota r.(q_id) 0 r.(concurrent_count) now).
Proof.
  intros qs now uid r Hr Hl Hc. unfold getQuota.
  rewrite resetDailyQuotas_lookup, Hr. simpl.
  rewrite (proj2 (Z.ltb_lt _ _) Hl). unfold quota_checks. cbn [concurrent_count cpu_time_used_ms].
  rewrite (proj2 (Z.leb_gt _ _)) by lia.
  rewrite (proj2 (Z.leb_gt _ _)) by (unfold MAX_CPU_TIME_MS; lia). done.
Qed.

(** [POST /admin/reset-quotas] answers 200 and resets the daily quotas exactly when the [X-Admin-Key] header is present and equals [ADMIN_KEY]; otherwise it answers 401 ["Invalid admin key"] and changes nothing. *)
Theorem X_admin_reset_route_spec :
  forall (adminKey ADMIN_KEY : option string) (qs : gmap string quota_row) (now : Z),
    let '(r, qs') := admin_reset_route adminKey ADMIN_KEY qs now in
    (r.(r_status) = 200 <-> adminKey = ADMIN_KEY /\ adminKey <> None) /\
    (r.(r_status) = 200 -> r.(r_body) = BMessage "Daily quotas reset" /\ qs' = resetDailyQuotas qs now) /\
    (r.(r_status) <> 200 -> r = mk_response 401 (BError "Invalid admin key") /\ qs' = qs).
Proof.
  intros [k|] [k'|] qs now; unfold admin_reset_route; simpl.
  - destruct (String.eqb k k') eqn:E; simpl.
    + apply String.eqb_eq in E as ->. split; [split; [done|intros _; split; congruence]|].
      split; [done|]. intros H; done.
    + apply String.eqb_neq in E. split; [split; [done|intros [H _]; congruence]|].
      split; [done|]. done.
  - split; [split; [done|intros [H _]; congruence]|]. split; done.
  - split; [split; [done|intros [H _]; congruence]|]. split; done.
  - split; [split; [done|intros [_ H]; congruence]|]. split; done.
Qed.

(** [GET /functions/:id] answers 400 for a malformed id, 404 when the caller owns no function with that id, and otherwise 200 with a stored function of that id owned by the caller; it never returns another user's function. *)
Theorem X_get_function_route_spec :
  forall (d : db) (user : user_row) (id : string),
    let r := get_function_route d user id in
    (validateUUID id = false /\ r = mk_response 400 (BError "Invalid UUID format")) \/
    (validateUUID id = true /\ r = mk_response 404 (BError "Function not found") /\
     forall f, In f d.(db_functions) -> f.(f_id) = id -> f.(f_user_id) <> user.(u_id)) \/
    (validateUUID id = true /\ exists f, r = mk_response 200 (BFunction (Some f)) /\
     In f d.(db_functions) /\ f.(f_id) = id /\ f.(f_user_id) = user.(u_id)).
Proof.
  intros d user id. unfold get_function_route.
  destruct (validateUUID id) eqn:Ev; simpl; [|by left].
  right. destruct (getFunction (db_functions d) id (u_id user)) as [f|] eqn:Eg.
  - right. split; [done|]. exists f. apply find_some_in in Eg as [Hin Ho].
    apply owned_true in Ho as [Ha Hb]. done.
  - left. split; [done|]. split; [done|]. intros f Hf Hid Hu.
    pose proof (find_none_forall _ _ Eg f Hf) as H. unfold owned in H.
    rewrite Hid, Hu, !String.eqb_refl in H. discriminate.
Qed.

(** The public run route executes only an enabled function found by a well-formed id, as its owner with its stored code, on input [null] when the [input] parameter is missing or empty and on its parse otherwise; it rejects a malformed id (400), a missing or disabled function (404) and unparsable input (400). *)
Theorem X_run_route_spec :
  forall (executeFunction : string -> string -> string -> json -> ExecResult)
         (fs : list function_row) (id : string) (input : option string),
    match run_route executeFunction fs id input with
    | RunAnswered functionId userId code inputData resp =>
        functionId = id /\ validateUUID id = true /\
        (exists f, getFunctionById fs id = Some f /\ f.(f_enabled) = true /\
                   userId = f.(f_user_id) /\ code = f.(f_code)) /\
        ((input = None \/ input = Some EmptyString) /\ inputData = JNull \/
         exists s, input = Some s /\ s <> EmptyString /\ JSON_parse s = Some inputData) /\
        resp = capture_response (executeFunction id userId code inputData)
    | RunError status message =>
        (validateUUID id = false /\ status = 400 /\ message = "Invalid function ID format") \/
        (validateUUID id = true /\ status = 404 /\ message = "Function not found or disabled" /\
         forall f, getFunctionById fs id = Some f -> f.(f_enabled) = false) \/
        (validateUUID id = true /\ status = 400 /\ message = "Invalid JSON in input parameter" /\
         exists f s, getFunctionById fs id = Some f /\ f.(f_enabled) = true /\
                     input = Some s /\ s <> EmptyString /\ JSON_parse s = None)
    end.
Proof.
  intros exec fs id input. unfold run_route, run_prechecks.
  destruct (validateUUID id) eqn:Ev; simpl; [|by left].
  destruct (getFunctionById fs id) as [f|] eqn:Eg.
  2: { right. left. split; [done|]. split; [done|]. split; [done|]. discriminate. }
  destruct (f_enabled f) eqn:Ee.
  2: { right. left. split; [done|]. split; [done|]. split; [done|]. intros g Hg. congruence. }
  destruct input as [s|].
  2: { split; [done|]. split; [done|]. split; [eauto|]. split; [left; auto|done]. }
  destruct (String.eqb s EmptyString) eqn:Es.
  { apply String.eqb_eq in Es as ->.
    split; [done|]. split; [done|]. split; [eauto|]. split; [left; auto|done]. }
  apply String.eqb_neq in Es.
  destruct (JSON_parse s) as [v|] eqn:Ep.
  - split; [done|]. split; [done|]. split; [eauto 10|]. split; [right; eauto|done].
  - right. right. split; [done|]. split; [done|]. split; [done|]. eauto 10.
Qed.

Lemma createFunction_inr (us : list user_row) (fs : list function_row)
    (functionId userId name code : string) (now : Z) (f : function_row) (fs' : list function_row) :
  createFunction us fs functionId userId name code now = inr (f, fs') ->
  f = mk_function functionId userId name code true now now /\ fs' = fs ++ [f] /\
  (forall g, In g fs -> String.eqb g.(f_id) functionId = false).
Proof.
  unfold createFunction.
  destruct (existsb (fun f => String.eqb f.(f_id) functionId) fs) eqn:E1; [discriminate|].
  destruct (existsb (fun f => String.eqb f.(f_user_id) userId && String.eqb f.(f_name) name) fs);
    [discriminate|].
  destruct (existsb (fun u => String.eqb u.(u_id) userId) us); simpl; [|discriminate].
  intros H. injection H as <- <-. split; [done|]. split; [done|].
  exact (existsb_false_forall _ _ E1).
Qed.

Lemma validation_cases (v : validation) : v = Valid \/ exists e, v = Invalid e.
Proof. destruct v; eauto. Qed.



(** A function just deployed (201) with a well-formed id can be run at once: the caller has a quota row, and the run route executes the deployed code as the caller on input [null]. *)
Theorem X_deploy_then_run :
  forall (executeFunction : string -> string -> string -> json -> ExecResult)
         (d : db) (user : user_row) (body : list (string * json)) (functionId quotaId : string) (now : Z),
    (fst (deploy_route d user body functionId quotaId now)).(r_status) = 201 ->
    validateUUID functionId = true ->
    let d' := snd (deploy_route d user body functionId quotaId now) in
    getQuota d'.(db_quotas) user.(u_id) <> None /\
    exists code, obj_get body "code" = Some (JStr code) /\
      run_route executeFunction d'.(db_functions) functionId None =
      RunAnswered functionId user.(u_id) code JNull
        (capture_response (executeFunction functionId user.(u_id) code JNull)).
Proof.
  intros exec d user body fid qid now. unfold deploy_route.
  destruct (validateFunctionName (obj_get body "name")) as [|e] eqn:En; [|simpl; discriminate].
  destruct (validateCode (obj_get body "code")) as [|e] eqn:Ec; [|simpl; discriminate].
  destruct (obj_get body "name") as [[|b|m e|n|l|kvs]|] eqn:On; try discriminate.
  destruct (obj_get body "code") as [[|b|m e|c|l|kvs]|] eqn:Oc; try discriminate.
  destruct (createFunction (db_users d) (db_functions d) fid (u_id user) n c now)
    as [e|[f fs]] eqn:Ecf; [simpl; discriminate|].
  destruct (createFunction_inr _ _ _ _ _ _ _ _ _ Ecf) as (-> & -> & Hfresh).
  intros _ Hv. simpl. split.
  { unfold getQuota, initializeQuota.
    destruct (db_quotas d !! u_id user) eqn:Eq; [by rewrite Eq|by rewrite lookup_insert_eq]. }
  exists c. split; [done|].
  unfold run_route, run_prechecks. rewrite Hv. simpl.
  unfold getFunctionById. rewrite find_app, find_none_intro by exact Hfresh.
  simpl. by rewrite String.eqb_refl.
Qed.

Lemma find_map_pres {A} (P : A -> bool) (h : A -> A) (l : list A) :
  (forall x, P (h x) = P x) -> find P (map h l) = option_map h (find P l).
Proof.
  intros H. induction l as [|x l IH]; simpl; [done|]. rewrite H. by destruct (P x).
Qed.

Lemma NoDup_map_in_inj {A B} (g : A -> B) (l : list A) (x y : A) :
  NoDup (map g l) -> In x l -> In y l -> g x = g y -> x = y.
Proof.
  induction l as [|z l IH]; simpl; [done|]. intros Hn Hx Hy Hg.
  apply NoDup_cons in Hn as [Hz Hn].
  destruct Hx as [<-|Hx], Hy as [<-|Hy]; auto.
  - exfalso. apply Hz. apply list_elem_of_In. rewrite Hg. by apply in_map.
  - exfalso. apply Hz. apply list_elem_of_In. rewrite <- Hg. by apply in_map.
Qed.

(** When function ids are unique, once the owner disables a function through the status route, the public run route rejects it: 404 for a well-formed id, 400 otherwise. *)
Theorem X_disable_then_run :
  forall (executeFunction : string -> string -> string -> json -> ExecResult)
         (d : db) (user : user_row) (id : string) (now : Z) (input : option string),
    NoDup (map f_id d.(db_functions)) ->
    getFunction d.(db_functions) id user.(u_id) <> None ->
    run_route executeFunction (snd (status_route d user id false now)).(db_functions) id input =
    if validateUUID id then RunError 404 "Function not found or disabled"
    else RunError 400 "Invalid function ID format".
Proof.
  intros exec d user id now input Hnd Hown.
  unfold status_route, updateFunctionStatus. simpl.
  unfold run_route, run_prechecks.
  destruct (validateUUID id) eqn:Ev; simpl; [|done].
  unfold getFunctionById.
  rewrite find_map_pres.
  2: { intros x. destruct (owned id (u_id user) x); done. }
  destruct (getFunction (db_functions d) id (u_id user)) as [g|] eqn:Eg; [|done].
  destruct (find (fun f => String.eqb (f_id f) id) (db_functions d)) as [g0|] eqn:E0.
  2: { apply find_some_in in Eg as [Hg Og]. apply owned_true in Og as [Og _].
       pose proof (find_none_forall _ _ E0 g Hg) as H. simpl in H.
       rewrite Og, String.eqb_refl in H. discriminate. }
  apply find_some_in in Eg as [Hg Og]. apply find_some_in in E0 as [Hg0 Og0].
  apply String.eqb_eq in Og0.
  assert (g0 = g) as ->.
  { apply (NoDup_map_in_inj f_id (db_functions d)); auto.
    apply owned_true in Og as [Og _]. congruence. }
  simpl. by rewrite Og.
Qed.

Lemma X_createOrUpdateUser_spec_witness :
  NoDup (map appwrite_user_id [mk_user "u1" "a1" "old@x" 0 0; mk_user "u2" "a2" "b@x" 0 0]) /\
  getUser (createOrUpdateUser [mk_user "u1" "a1" "old@x" 0 0; mk_user "u2" "a2" "b@x" 0 0]
             "u3" "a1" "new@x" 5).2 "a1" =
  Some (createOrUpdateUser [mk_user "u1" "a1" "old@x" 0 0; mk_user "u2" "a2" "b@x" 0 0]
          "u3" "a1" "new@x" 5).1.
Proof.
  assert (Hnd : NoDup (map appwrite_user_id [mk_user "u1" "a1" "old@x" 0 0; mk_user "u2" "a2" "b@x" 0 0])).
  { simpl. constructor; [|apply NoDup_singleton]. intros H. apply list_elem_of_singleton in H. discriminate. }
  split; [exact Hnd|].
  pose proof (X_createOrUpdateUser_spec [mk_user "u1" "a1" "old@x" 0 0; mk_user "u2" "a2" "b@x" 0 0]
                "u3" "a1" "new@x" 5 Hnd) as H.
  destruct (createOrUpdateUser _ _ _ _ _) as [u us']. simpl. tauto.
Defined.

Lemma X_reset_then_admit_witness :
  (<["u" := mk_quota "q" 5000 3 0]> (∅ : gmap string quota_row)) !! "u" = Some (mk_quota "q" 5000 3 0) /\
  0 < 2 * DAY_MS - DAY_MS /\ 3 < MAX_CONCURRENT_EXECUTIONS /\
  quota_checks (getQuota (resetDailyQuotas (<["u" := mk_quota "q" 5000 3 0]> ∅) (2 * DAY_MS)) "u") =
  Admit (mk_quota "q" 0 3 (2 * DAY_MS)).
Proof.
  assert (H1 : (<["u" := mk_quota "q" 5000 3 0]> (∅ : gmap string quota_row)) !! "u" =
               Some (mk_quota "q" 5000 3 0)) by reflexivity.
  assert (H2 : 0 < 2 * DAY_MS - DAY_MS) by (unfold DAY_MS; lia).
  assert (H3 : 3 < MAX_CONCURRENT_EXECUTIONS) by (unfold MAX_CONCURRENT_EXECUTIONS; lia).
  split; [exact H1|]. split; [exact H2|]. split; [exact H3|].
  exact (X_reset_then_admit _ (2 * DAY_MS) "u" (mk_quota "q" 5000 3 0) H1 H2 H3).
Defined.

Lemma X_deploy_then_run_witness :
  (fst (deploy_route (mk_db [mk_user "u1" "a1" "e@x" 0 0] [] ∅ []) (mk_user "u1" "a1" "e@x" 0 0)
          [("name", JStr "hello"); ("code", JStr "return 1")]
          "123e4567-e89b-12d3-a456-426614174000" "q1" 7)).(r_status) = 201 /\
  validateUUID "123e4567-e89b-12d3-a456-426614174000" = true /\
  run_route (fun _ _ _ _ => error_result None 0)
    (snd (deploy_route (mk_db [mk_user "u1" "a1" "e@x" 0 0] [] ∅ []) (mk_user "u1" "a1" "e@x" 0 0)
            [("name", JStr "hello"); ("code", JStr "return 1")]
            "123e4567-e89b-12d3-a456-426614174000" "q1" 7)).(db_functions)
    "123e4567-e89b-12d3-a456-426614174000" None =
  RunAnswered "123e4567-e89b-12d3-a456-426614174000" "u1" "return 1" JNull
    (capture_response (error_result None 0)).
Proof.
  assert (H1 : (fst (deploy_route (mk_db [mk_user "u1" "a1" "e@x" 0 0] [] ∅ []) (mk_user "u1" "a1" "e@x" 0 0)
          [("name", JStr "hello"); ("code", JStr "return 1")]
          "123e4567-e89b-12d3-a456-426614174000" "q1" 7)).(r_status) = 201) by (vm_compute; reflexivity).
  assert (H2 : validateUUID "123e4567-e89b-12d3-a456-426614174000" = true) by (vm_compute; reflexivity).
  split; [exact H1|]. split; [exact H2|].
  destruct (X_deploy_then_run (fun _ _ _ _ => error_result None 0) _ _ _ _ _ _ H1 H2)
    as [_ (c & Hc & Hr)].
  simpl in Hc. injection Hc as <-. exact Hr.
Defined.

Lemma X_disable_then_run_witness :
  NoDup (map f_id [mk_function "123e4567-e89b-12d3-a456-426614174000" "u1" "hello" "return 1" true 0 0]) /\
  getFunction [mk_function "123e4567-e89b-12d3-a456-426614174000" "u1" "hello" "return 1" true 0 0]
    "123e4567-e89b-12d3-a456-426614174000" "u1" <> None /\
  run_route (fun _ _ _ _ => error_result None 0)
    (snd (status_route (mk_db [mk_user "u1" "a1" "e@x" 0 0]
            [mk_function "123e4567-e89b-12d3-a456-426614174000" "u1" "hello" "return 1" true 0 0] ∅ [])
            (mk_user "u1" "a1" "e@x" 0 0) "123e4567-e89b-12d3-a456-426614174000" false 9)).(db_functions)
    "123e4567-e89b-12d3-a456-426614174000" (Some "42") =
  RunError 404 "Function not found or disabled".
Proof.
  assert (H1 : NoDup (map f_id [mk_function "123e4567-e89b-12d3-a456-426614174000" "u1" "hello" "return 1" true 0 0]))
    by apply NoDup_singleton.
  assert (H2 : getFunction [mk_function "123e4567-e89b-12d3-a456-426614174000" "u1" "hello" "return 1" true 0 0]
                 "123e4567-e89b-12d3-a456-426614174000" "u1" <> None) by (vm_compute; discriminate).
  split; [exact H1|]. split; [exact H2|].
  rewrite (X_disable_then_run (fun _ _ _ _ => error_result None 0)
             (mk_db [mk_user "u1" "a1" "e@x" 0 0]
                [mk_function "123e4567-e89b-12d3-a456-426614174000" "u1" "hello" "return 1" true 0 0] ∅ [])
             (mk_user "u1" "a1" "e@x" 0 0) _ 9 (Some "42") H1 H2).
  vm_compute. reflexivity.
Defined.
